(** * Redux core: [createStore], [compose] and [applyMiddleware]

    A shallow embedding of the three source files of the repository

    - [createStore] (the store: state, reducer, listener registry,
      dispatch gate),
    - [compose] (right-to-left composition of functions),
    - [applyMiddleware] (the store enhancer wrapping [dispatch]),

    followed by the properties of the specification that are proved
    about them.

    JavaScript values are an inductive type. The closure variables of
    [createStore] are the fields of a record [store]; the two listener
    arrays are references into a heap of arrays, so that aliasing
    ([nextListeners === currentListeners]) is a fact about references
    and a write through one reference is seen through the other. Client
    code (reducers, listeners, middleware) is a tree of calls of the
    store's public operations, each continuation receiving either the
    value returned or the exception thrown by the call, so that every
    reentrant use of the store from a reducer or a listener is a
    program of the model. Running client code takes fuel, which bounds
    the nesting of calls and the length of a notification loop; the
    answer is [None] when the fuel runs out.

    The file has three parts: the model, the vocabulary of the
    properties (invariants, events, scenarios), and the proofs. *)

From Stdlib Require Import ZArith Lia.
From stdpp Require Import base list strings.

Set Warnings "-register-all".

(** ** JavaScript values *)

(** Functions written by the client are named by an identifier; their
    bodies are found in the environment (see [env] below). *)
Abbreviation fid := nat (only parsing).

(** Numbers are integers here: the store never computes with them. *)
Inductive value : Type :=
| VUndefined
| VNull
| VBool (b : bool)
| VNum (n : Z)
| VStr (s : string)
| VArr (items : list value)
| VObj (fields : list (string * value))
| VInstance (class : string) (fields : list (string * value))
| VFun (f : fid).

(** The [typeof] operator. *)
Definition typeof (v : value) : string :=
  match v with
  | VUndefined => "undefined"
  | VNull => "object"
  | VBool _ => "boolean"
  | VNum _ => "number"
  | VStr _ => "string"
  | VArr _ => "object"
  | VObj _ => "object"
  | VInstance _ _ => "object"
  | VFun _ => "function"
  end.

Fixpoint assoc (key : string) (fields : list (string * value)) : value :=
  match fields with
  | [] => VUndefined
  | (k, v) :: rest => if String.eqb k key then v else assoc key rest
  end.

(** Property read [v.key] on a value that is an object. *)
Definition get_prop (v : value) (key : string) : value :=
  match v with
  | VObj fields => assoc key fields
  | VInstance _ fields => assoc key fields
  | _ => VUndefined
  end.

(** Modelled from the spec: [isPlainObject] of [./utils/isPlainObject],
    which is imported by the store but is not among the sources. The
    specification describes it as the predicate that "distinguishes
    ordinary structured records from arrays/class instances/null/
    primitives". *)
Definition isPlainObject (v : value) : bool :=
  match v with
  | VObj _ => true
  | _ => false
  end.

(** ** Exceptions and call results *)

Inductive exn : Type :=
| JsError (msg : string)
| JsTypeError (msg : string)
| JsThrown (v : value).

Inductive result (A : Type) : Type :=
| Returned (a : A)
| Threw (e : exn).
Arguments Returned {A} a.
Arguments Threw {A} e.

(** The double quote character, for the one message that contains it. *)
Definition dquote : string :=
  String (Ascii.Ascii false true false false false true false false) EmptyString.

Module Msg.
Local Open Scope string_scope.
Definition enhancer_not_function := "Expected the enhancer to be a function.".
Definition reducer_not_function := "Expected the reducer to be a function.".
Definition getState_while_dispatching :=
  "You may not call store.getState() while the reducer is executing. " ++
  "The reducer has already received the state as an argument. " ++
  "Pass it down from the top reducer instead of reading it from the store.".
Definition listener_not_function := "Expected the listener to be a function.".
Definition subscribe_while_dispatching :=
  "You may not call store.subscribe() while the reducer is executing. " ++
  "If you would like to be notified after the store has been updated, subscribe from a " ++
  "component and invoke store.getState() in the callback to access the latest state. " ++
  "See https://redux.js.org/api-reference/store#subscribe(listener) for more details.".
Definition unsubscribe_while_dispatching :=
  "You may not unsubscribe from a store listener while the reducer is executing. " ++
  "See https://redux.js.org/api-reference/store#subscribe(listener) for more details.".
Definition not_plain_object :=
  "Actions must be plain objects. " ++
  "Use custom middleware for async actions.".
Definition undefined_type :=
  "Actions may not have an undefined " ++ dquote ++ "type" ++ dquote ++ " property. " ++
  "Have you misspelled a constant?".
Definition reducers_may_not_dispatch := "Reducers may not dispatch actions.".
Definition nextReducer_not_function := "Expected the nextReducer to be a function.".
Definition dispatching_while_constructing :=
  "Dispatching while constructing your middleware is not allowed. " ++
  "Other middleware would not be applied to this dispatch.".
Definition not_a_function := "not a function".
End Msg.

(** ** The store *)

(** Observations recorded while the store runs. They are ghost data: no
    operation reads them. [d] numbers the dispatches in the order in
    which they pass validation. *)
Inductive event : Type :=
| EvReducer (d : nat) (action : value)   (* dispatch [d] calls the reducer *)
| EvCommit (d : nat) (state : value)     (* dispatch [d] assigns [currentState] *)
| EvListener (d : nat) (l : fid)         (* the loop of dispatch [d] calls [l] *)
| EvSubscribe (l : fid) (h : nat)        (* [subscribe(l)] registered [l] *)
| EvUnsubscribe (h : nat) (l : fid)      (* an [unsubscribe] removed [l] *)
| EvEmit (v : value).                    (* output of client code *)

(** The variables closed over by the operations of one store.

    [heap] holds every listener array ever allocated; [currentListeners]
    and [nextListeners] are references (indices) into it, so that
    [nextListeners === currentListeners] is equality of references.
    [subs] holds, for every call of [subscribe] that succeeded, the
    listener captured by the returned [unsubscribe] closure and its
    [isSubscribed] variable; the closure is named by its index.
    [client] is not a variable of the store: it holds the variables of
    the client's own closures, which the store never reads.
    [ndispatch] and [trace] are ghost: the number of dispatches that
    passed validation so far, and the events recorded so far. *)
Record store : Type := mkStore {
  currentReducer : fid;
  currentState : value;
  heap : list (list fid);
  currentListeners : nat;
  nextListeners : nat;
  isDispatching : bool;
  subs : list (fid * bool);
  client : value;
  ndispatch : nat;
  trace : list event
}.

Definition with_currentReducer (x : fid) (s : store) : store :=
  mkStore x (currentState s) (heap s) (currentListeners s) (nextListeners s)
          (isDispatching s) (subs s) (client s) (ndispatch s) (trace s).
Definition with_currentState (x : value) (s : store) : store :=
  mkStore (currentReducer s) x (heap s) (currentListeners s) (nextListeners s)
          (isDispatching s) (subs s) (client s) (ndispatch s) (trace s).
Definition with_heap (x : list (list fid)) (s : store) : store :=
  mkStore (currentReducer s) (currentState s) x (currentListeners s) (nextListeners s)
          (isDispatching s) (subs s) (client s) (ndispatch s) (trace s).
Definition with_currentListeners (x : nat) (s : store) : store :=
  mkStore (currentReducer s) (currentState s) (heap s) x (nextListeners s)
          (isDispatching s) (subs s) (client s) (ndispatch s) (trace s).
Definition with_nextListeners (x : nat) (s : store) : store :=
  mkStore (currentReducer s) (currentState s) (heap s) (currentListeners s) x
          (isDispatching s) (subs s) (client s) (ndispatch s) (trace s).
Definition with_isDispatching (x : bool) (s : store) : store :=
  mkStore (currentReducer s) (currentState s) (heap s) (currentListeners s)
          (nextListeners s) x (subs s) (client s) (ndispatch s) (trace s).
Definition with_subs (x : list (fid * bool)) (s : store) : store :=
  mkStore (currentReducer s) (currentState s) (heap s) (currentListeners s)
          (nextListeners s) (isDispatching s) x (client s) (ndispatch s) (trace s).
Definition with_client (x : value) (s : store) : store :=
  mkStore (currentReducer s) (currentState s) (heap s) (currentListeners s)
          (nextListeners s) (isDispatching s) (subs s) x (ndispatch s) (trace s).
Definition with_ndispatch (x : nat) (s : store) : store :=
  mkStore (currentReducer s) (currentState s) (heap s) (currentListeners s)
          (nextListeners s) (isDispatching s) (subs s) (client s) x (trace s).
Definition log (e : event) (s : store) : store :=
  mkStore (currentReducer s) (currentState s) (heap s) (currentListeners s)
          (nextListeners s) (isDispatching s) (subs s) (client s) (ndispatch s)
          (trace s ++ [e]).

(** The array a reference points to. *)
Definition array_at (s : store) (ref : nat) : list fid :=
  default [] (heap s !! ref).

(** The working list: the array [nextListeners] refers to. *)
Definition working (s : store) : list fid := array_at s (nextListeners s).

(** The committed list: the array [currentListeners] refers to. *)
Definition committed (s : store) : list fid := array_at s (currentListeners s).

(** [Array.prototype.indexOf] on an array of functions: the first index
    holding the same function, or [-1]. *)
Fixpoint indexOf (l : fid) (arr : list fid) : Z :=
  match arr with
  | [] => (-1)%Z
  | x :: rest =>
      if Nat.eqb x l then 0%Z
      else let i := indexOf l rest in
           if (i <? 0)%Z then (-1)%Z else (i + 1)%Z
  end.

(** [arr.splice(index, 1)]: a negative [index] counts from the end of
    the array; at most one element is removed. *)
Definition splice1 (index : Z) (arr : list fid) : list fid :=
  let len := Z.of_nat (length arr) in
  let start := if (index <? 0)%Z then Z.max (len + index) 0 else Z.min index len in
  delete (Z.to_nat start) arr.

Definition ensureCanMutateNextListeners (s : store) : store :=
  if Nat.eqb (nextListeners s) (currentListeners s) then
    (* nextListeners = currentListeners.slice() *)
    with_nextListeners (length (heap s)) (with_heap (heap s ++ [committed s]) s)
  else s.

Definition getState (s : store) : result value * store :=
  if isDispatching s then (Threw (JsError Msg.getState_while_dispatching), s)
  else (Returned (currentState s), s).

(** An update in place of the array [nextListeners] refers to. *)
Definition write_next (w : list fid) (s : store) : store :=
  with_heap (<[nextListeners s := w]> (heap s)) s.

(** [nextListeners.push(listener)] *)
Definition push_next (l : fid) (s : store) : store :=
  write_next (working s ++ [l]) s.

(** [subscribe(listener)]; the result is the name of the [unsubscribe]
    closure that was created. *)
Definition subscribe (listener : value) (s : store) : result nat * store :=
  match listener with
  | VFun l =>
      if isDispatching s then (Threw (JsError Msg.subscribe_while_dispatching), s)
      else
        let h := length (subs s) in
        (* let isSubscribed = true *)
        let s1 := with_subs (subs s ++ [(l, true)]) s in
        let s2 := ensureCanMutateNextListeners s1 in
        let s3 := push_next l s2 in
        (* return function unsubscribe() { ... } *)
        (Returned h, log (EvSubscribe l h) s3)
  | _ => (Threw (JsError Msg.listener_not_function), s)
  end.

(** A call of the [unsubscribe] closure named [h]. A name that no
    [subscribe] returned denotes no function. *)
Definition unsubscribe (h : nat) (s : store) : result value * store :=
  match subs s !! h with
  | None => (Threw (JsTypeError Msg.not_a_function), s)
  | Some (l, isSubscribed) =>
      if negb isSubscribed then (Returned VUndefined, s)
      else if isDispatching s then
        (Threw (JsError Msg.unsubscribe_while_dispatching), s)
      else
        (* isSubscribed = false *)
        let s1 := with_subs (<[h := (l, false)]> (subs s)) s in
        let s2 := ensureCanMutateNextListeners s1 in
        let index := indexOf l (working s2) in
        (* nextListeners.splice(index, 1) *)
        let s3 := write_next (splice1 index (working s2)) s2 in
        (Returned VUndefined, log (EvUnsubscribe h l) s3)
  end.

(** ** Client code *)

(** Code that runs against the store: a tree whose nodes are calls of the
    store's operations. The continuation of a call receives its outcome,
    so that a [try]/[catch] around the call is a continuation that goes
    on after [Threw], and an uncaught exception is a continuation that
    rethrows it. [CallApiDispatch] is a call of [middlewareAPI.dispatch],
    the late-bound reference to the [dispatch] variable of
    [applyMiddleware]. [Emit] is output (a log); [ReadClient] and
    [WriteClient] read and assign the client's own variables. *)
Inductive prog (A : Type) : Type :=
| Ret (a : A)
| Throw (e : exn)
| CallGetState (k : result value -> prog A)
| CallSubscribe (listener : value) (k : result nat -> prog A)
| CallUnsubscribe (h : nat) (k : result value -> prog A)
| CallDispatch (action : value) (k : result value -> prog A)
| CallReplaceReducer (nextReducer : value) (k : result value -> prog A)
| CallApiDispatch (action : value) (k : result value -> prog A)
| Emit (v : value) (k : prog A)
| ReadClient (k : value -> prog A)
| WriteClient (v : value) (k : prog A).
Arguments Ret {A} a.
Arguments Throw {A} e.
Arguments CallGetState {A} k.
Arguments CallSubscribe {A} listener k.
Arguments CallUnsubscribe {A} h k.
Arguments CallDispatch {A} action k.
Arguments CallReplaceReducer {A} nextReducer k.
Arguments CallApiDispatch {A} action k.
Arguments Emit {A} v k.
Arguments ReadClient {A} k.
Arguments WriteClient {A} v k.

(** The continuation of a call that is not inside a [try]. *)
Definition propagate {A : Type} (r : result A) : prog A :=
  match r with
  | Returned a => Ret a
  | Threw e => Throw e
  end.

Fixpoint bind {A B : Type} (p : prog A) (f : A -> prog B) : prog B :=
  match p with
  | Ret a => f a
  | Throw e => Throw e
  | CallGetState k => CallGetState (fun r => bind (k r) f)
  | CallSubscribe l k => CallSubscribe l (fun r => bind (k r) f)
  | CallUnsubscribe h k => CallUnsubscribe h (fun r => bind (k r) f)
  | CallDispatch a k => CallDispatch a (fun r => bind (k r) f)
  | CallReplaceReducer n k => CallReplaceReducer n (fun r => bind (k r) f)
  | CallApiDispatch a k => CallApiDispatch a (fun r => bind (k r) f)
  | Emit v k => Emit v (bind k f)
  | ReadClient k => ReadClient (fun m => bind (k m) f)
  | WriteClient v k => WriteClient v (bind k f)
  end.

(** A dispatch function: [action => result]. *)
Definition DispatchFn : Type := value -> prog value.

(** The result of a run is [None] when the run was cut off before it
    finished; otherwise it is the outcome and the store at that point. *)
Definition answer (A : Type) : Type := option (result A * store).

(** The object returned by [createStore]. Only [dispatch] is a field:
    an enhanced store is [{...store, dispatch}], the other members are
    those of the base store, which client code reaches through the calls
    of [prog]. *)
Record StoreObject : Type := mkStoreObject {
  dispatch_of : DispatchFn
}.

(** A store creator as an enhancer calls it, [(reducer, preloadedState)],
    and an enhancer. The creator returns the store object together with
    the variables of the store it created, or throws. *)
Definition StoreCreator : Type :=
  value -> value -> option (result (StoreObject * store)).
Definition Enhancer : Type := StoreCreator -> StoreCreator.

(** What the code of a store is closed over: the reserved action types
    of [./utils/actionTypes] (not among the sources, taken as
    parameters), the bodies of the client's functions when they are
    called with a list of arguments, what a client function does when it
    is called as an enhancer, and the content of the [dispatch] variable
    of [applyMiddleware]: [None] while it holds the placeholder that
    throws, [Some f] once it holds the composed chain. *)
Record env : Type := mkEnv {
  INIT : string;
  REPLACE : string;
  body : fid -> list value -> prog value;
  as_enhancer : fid -> Enhancer;
  dispatch_cell : option DispatchFn
}.

Definition with_dispatch_cell (c : option DispatchFn) (E : env) : env :=
  mkEnv (INIT E) (REPLACE E) (body E) (as_enhancer E) c.

(** ** Running client code against the store *)

Section Exec.
Variable E : env.
(** bound on the iterations of one notification loop *)
Variable gas : nat.
(** a call of a client function: runs its body *)
Variable invoke : prog value -> store -> answer value.

(** The notification loop of dispatch [d],
    [for (let i = 0; i < listeners.length; i++) listeners[i]()], from
    index [i] on. [listeners] is a reference: the array is looked up in
    the heap at every iteration. *)
Fixpoint notify (turns : nat) (listeners : nat) (d : nat) (i : nat) (s : store)
  : answer unit :=
  match turns with
  | O => None
  | S turns' =>
      match array_at s listeners !! i with
      | None => Some (Returned tt, s)                        (* i >= listeners.length *)
      | Some listener =>
          match invoke (body E listener []) (log (EvListener d listener) s) with
          | None => None
          | Some (Threw e, s') => Some (Threw e, s')
          | Some (Returned _, s') => notify turns' listeners d (S i) s'
          end
      end
  end.

Definition dispatch (action : value) (s : store) : answer value :=
  if negb (isPlainObject action) then
    Some (Threw (JsError Msg.not_plain_object), s)
  else if String.eqb (typeof (get_prop action "type")) "undefined" then
    Some (Threw (JsError Msg.undefined_type), s)
  else if isDispatching s then
    Some (Threw (JsError Msg.reducers_may_not_dispatch), s)
  else
    let d := ndispatch s in                                     (* ghost *)
    let s0 := log (EvReducer d action) (with_ndispatch (S d) s) in
    (* try { isDispatching = true
             currentState = currentReducer(currentState, action) }
       finally { isDispatching = false } *)
    match invoke (body E (currentReducer s0) [currentState s0; action])
                 (with_isDispatching true s0) with
    | None => None
    | Some (Threw e, s1) => Some (Threw e, with_isDispatching false s1)
    | Some (Returned v, s1) =>
        let s2 := with_isDispatching false (log (EvCommit d v) (with_currentState v s1)) in
        (* const listeners = (currentListeners = nextListeners) *)
        let listeners := nextListeners s2 in
        let s3 := with_currentListeners listeners s2 in
        match notify gas listeners d 0 s3 with
        | None => None
        | Some (Threw e, s4) => Some (Threw e, s4)
        | Some (Returned _, s4) => Some (Returned action, s4)
        end
    end.

Definition replaceReducer (nextReducer : value) (s : store) : answer value :=
  match nextReducer with
  | VFun f =>
      let s1 := with_currentReducer f s in
      match dispatch (VObj [("type", VStr (REPLACE E))]) s1 with
      | None => None
      | Some (Threw e, s2) => Some (Threw e, s2)
      | Some (Returned _, s2) => Some (Returned VUndefined, s2)
      end
  | _ => Some (Threw (JsError Msg.nextReducer_not_function), s)
  end.

(** [middlewareAPI.dispatch]: [(...args) => dispatch(...args)], reading
    the [dispatch] variable at the time of the call. *)
Definition api_dispatch (action : value) (s : store) : answer value :=
  match dispatch_cell E with
  | None => Some (Threw (JsError Msg.dispatching_while_constructing), s)
  | Some f => invoke (f action) s
  end.

Fixpoint exec {A : Type} (p : prog A) (s : store) : answer A :=
  match p with
  | Ret a => Some (Returned a, s)
  | Throw e => Some (Threw e, s)
  | CallGetState k => let '(r, s') := getState s in exec (k r) s'
  | CallSubscribe l k => let '(r, s') := subscribe l s in exec (k r) s'
  | CallUnsubscribe h k => let '(r, s') := unsubscribe h s in exec (k r) s'
  | CallDispatch a k =>
      match dispatch a s with
      | None => None
      | Some (r, s') => exec (k r) s'
      end
  | CallReplaceReducer n k =>
      match replaceReducer n s with
      | None => None
      | Some (r, s') => exec (k r) s'
      end
  | CallApiDispatch a k =>
      match api_dispatch a s with
      | None => None
      | Some (r, s') => exec (k r) s'
      end
  | Emit v k => exec k (log (EvEmit v) s)
  | ReadClient k => exec (k (client s)) s
  | WriteClient v k => exec k (with_client v s)
  end.
End Exec.

(** A call of a client function with [fuel] levels of nested calls
    left. *)
Fixpoint call (E : env) (fuel : nat) : prog value -> store -> answer value :=
  match fuel with
  | O => fun _ _ => None
  | S n => exec E n (call E n)
  end.

(** Running a piece of client code; [fuel] bounds the nesting of calls
    and the length of each notification loop. *)
Definition run (E : env) (fuel : nat) {A : Type} (p : prog A) (s : store) : answer A :=
  exec E fuel (call E fuel) p s.

(** [store.dispatch(action)] called from outside any client code. *)
Definition store_dispatch (E : env) (fuel : nat) (action : value) (s : store)
  : answer value :=
  dispatch E fuel (call E fuel) action s.

(** ** [compose] *)

Section Compose.
Context {T : Type}.
(** the value of a parameter that was given no argument *)
Variable undefined : T.

(** A function of the client takes the list of its arguments.
    [compose(...funcs)]: *)
Definition compose (funcs : list (list T -> T)) : list T -> T :=
  match funcs with
  | [] => fun args => hd undefined args                  (* arg => arg *)
  | [f] => f                                             (* funcs[0] *)
  | f :: rest =>
      (* funcs.reduce((a, b) => (...args) => a(b(...args))) *)
      fold_left (fun a b => fun args => a [b args]) rest f
  end.

(** A function of one parameter, [x => f x]. *)
Definition unary (f : T -> T) : list T -> T :=
  fun args => f (hd undefined args).
End Compose.

(** ** [createStore] *)

(** The third argument of [createStore]: a first-order value, or a
    function from store creators to store creators. *)
Inductive enhancer_arg : Type :=
| EnhancerValue (v : value)
| EnhancerFn (e : Enhancer).

Definition typeof_enhancer (a : enhancer_arg) : string :=
  match a with
  | EnhancerValue v => typeof v
  | EnhancerFn _ => "function"
  end.

(** The enhancer an argument denotes when its [typeof] is
    ["function"]. *)
Definition callable_enhancer (E : env) (a : enhancer_arg) : option Enhancer :=
  match a with
  | EnhancerFn e => Some e
  | EnhancerValue (VFun f) => Some (as_enhancer E f)
  | EnhancerValue _ => None
  end.

(** The variables of a store when [createStore] has initialised them. *)
Definition initial_store (reducer : fid) (preloadedState : value) : store :=
  {| currentReducer := reducer;
     currentState := preloadedState;
     heap := [[]];               (* let currentListeners = [] *)
     currentListeners := 0;
     nextListeners := 0;         (* let nextListeners = currentListeners *)
     isDispatching := false;
     subs := [];
     client := VUndefined;
     ndispatch := 0;
     trace := [] |}.

(** [store.dispatch] of the base store, as a function of client code. *)
Definition raw_dispatch : DispatchFn := fun action => CallDispatch action propagate.

Fixpoint createStore (E : env) (fuel : nat)
    (reducer preloadedState : value) (enhancer : enhancer_arg)
  : option (result (StoreObject * store)) :=
  let '(preloadedState, enhancer) :=
    if String.eqb (typeof preloadedState) "function"
       && String.eqb (typeof_enhancer enhancer) "undefined"
    then (VUndefined, EnhancerValue preloadedState)
    else (preloadedState, enhancer) in
  if negb (String.eqb (typeof_enhancer enhancer) "undefined") then
    match callable_enhancer E enhancer with
    | None => Some (Threw (JsError Msg.enhancer_not_function))
    | Some enh =>
        (* return enhancer(createStore)(reducer, preloadedState) *)
        match fuel with
        | O => None
        | S n =>
            enh (fun r p => createStore E n r p (EnhancerValue VUndefined))
                reducer preloadedState
        end
    end
  else
    match reducer with
    | VFun f =>
        let s := initial_store f preloadedState in
        match store_dispatch E fuel (VObj [("type", VStr (INIT E))]) s with
        | None => None
        | Some (Threw e, _) => Some (Threw e)
        | Some (Returned _, s') => Some (Returned (mkStoreObject raw_dispatch, s'))
        end
    | _ => Some (Threw (JsError Msg.reducer_not_function))
    end.

(** ** [observable] *)

(** The conversion of a value to a boolean that the test of an [if]
    makes. *)
Definition truthy (v : value) : bool :=
  match v with
  | VUndefined | VNull => false
  | VBool b => b
  | VNum n => negb (n =? 0)%Z
  | VStr EmptyString => false
  | _ => true
  end.

Definition observer_not_object : string := "Expected the observer to be an object.".

(** The call of a value that is not a function is a [TypeError] that
    the engine throws; its message is the engine's and no property
    depends on it. The wording is the one of Node.js for
    [observer.next(...)]. *)
Definition observer_next_not_function : string := "observer.next is not a function".

(** The function [observeState] that [subscribe(observer)] of the
    observable defines:
    [if (observer.next) { observer.next(getState()) }]. The argument
    [getState()] is evaluated before [observer.next] is called, and the
    call is a type error when [observer.next] is not a function. *)
Definition observeState (E : env) (observer : value) : prog value :=
  let next := get_prop observer "next" in
  if truthy next then
    CallGetState (fun r =>
      match r with
      | Threw e => Throw e
      | Returned state =>
          match next with
          | VFun f => bind (body E f [state]) (fun _ => Ret VUndefined)
          | _ => Throw (JsTypeError observer_next_not_function)
          end
      end)
  else Ret VUndefined.

(** [subscribe(observer)] of the object that [observable()] returns.
    Every call creates a function [observeState]; [closure] is the name
    of the one this call creates, and the environment is expected to
    give it the body [observeState E observer]. The result stands for
    [{ unsubscribe }]: the name of the [unsubscribe] closure that the
    store's [subscribe] returned. The member [[$$observable]] of the
    object, which returns the object itself, is not modelled. *)
Definition observable_subscribe (E : env) (closure : fid) (observer : value)
  : prog nat :=
  if negb (String.eqb (typeof observer) "object")
     || match observer with VNull => true | _ => false end
  then Throw (JsTypeError observer_not_object)
  else
    (* observeState() *)
    bind (observeState E observer) (fun _ =>
    (* const unsubscribe = outerSubscribe(observeState) *)
    CallSubscribe (VFun closure) propagate).

(** ** [applyMiddleware] *)

Record MiddlewareAPI : Type := mkMiddlewareAPI {
  api_getState : prog value;
  api_dispatch_fn : DispatchFn
}.

(** [middleware(middlewareAPI)] runs and returns [next => action => ...]. *)
Definition Middleware : Type := MiddlewareAPI -> prog (DispatchFn -> DispatchFn).

Definition middlewareAPI : MiddlewareAPI :=
  {| api_getState := CallGetState propagate;
     api_dispatch_fn := fun action => CallApiDispatch action propagate |}.

(** What a chain element reads from [next] when it is given no argument:
    calling it is a type error. *)
Definition undefined_fn : DispatchFn :=
  fun _ => Throw (JsTypeError Msg.not_a_function).

(** [middlewares.map(middleware => middleware(middlewareAPI))] *)
Fixpoint build_chain (E : env) (fuel : nat) (middlewares : list Middleware) (s : store)
  : answer (list (DispatchFn -> DispatchFn)) :=
  match middlewares with
  | [] => Some (Returned [], s)
  | m :: rest =>
      match run E fuel (m middlewareAPI) s with
      | None => None
      | Some (Threw e, s') => Some (Threw e, s')
      | Some (Returned w, s') =>
          match build_chain E fuel rest s' with
          | None => None
          | Some (Threw e, s'') => Some (Threw e, s'')
          | Some (Returned ws, s'') => Some (Returned (w :: ws), s'')
          end
      end
  end.

Definition applyMiddleware (E : env) (fuel : nat) (middlewares : list Middleware)
  : Enhancer :=
  fun createStore reducer preloadedState =>
    match createStore reducer preloadedState with
    | None => None
    | Some (Threw e) => Some (Threw e)
    | Some (Returned (st, s)) =>
        (* let dispatch = () => { throw new Error(...) } *)
        let E0 := with_dispatch_cell None E in
        match build_chain E0 fuel middlewares s with
        | None => None
        | Some (Threw e, _) => Some (Threw e)
        | Some (Returned chain, s') =>
            (* dispatch = compose(...chain)(store.dispatch) *)
            let dispatch := compose undefined_fn (map (unary undefined_fn) chain)
                                    [dispatch_of st] in
            Some (Returned (mkStoreObject dispatch, s'))
        end
    end.

(** ** Vocabulary of the properties *)

(** Number of occurrences of a listener in an array. *)
Fixpoint count (l : fid) (arr : list fid) : nat :=
  match arr with
  | [] => 0
  | x :: rest => (if Nat.eqb x l then 1 else 0) + count l rest
  end.

(** Number of [unsubscribe] closures for [l] whose [isSubscribed] is
    still true. *)
Fixpoint active_count (l : fid) (u : list (fid * bool)) : nat :=
  match u with
  | [] => 0
  | (x, b) :: rest => (if Nat.eqb x l && b then 1 else 0) + active_count l rest
  end.

(** Removal of a listener by identity, as the specification words it:
    the first entry that is this function goes, the others stay in
    order. *)
Fixpoint remove_first (l : fid) (arr : list fid) : list fid :=
  match arr with
  | [] => []
  | x :: rest => if Nat.eqb x l then rest else x :: remove_first l rest
  end.

(** The number of the dispatch an event belongs to. *)
Definition event_id (e : event) : option nat :=
  match e with
  | EvReducer d _ | EvCommit d _ | EvListener d _ => Some d
  | _ => None
  end.

Definition ids_from (d : nat) (evs : list event) : Prop :=
  Forall (fun e => forall d', event_id e = Some d' -> d <= d') evs.

Definition ids_below (n : nat) (evs : list event) : Prop :=
  Forall (fun e => forall d', event_id e = Some d' -> d' < n) evs.

Definition is_emit (e : event) : Prop :=
  match e with
  | EvEmit _ => True
  | _ => False
  end.

(** The listeners called by the notification loop of dispatch [d], in
    the order of the calls. *)
Fixpoint listeners_of (d : nat) (evs : list event) : list fid :=
  match evs with
  | [] => []
  | EvListener d' l :: rest =>
      if Nat.eqb d' d then l :: listeners_of d rest else listeners_of d rest
  | _ :: rest => listeners_of d rest
  end.

(** The state after the assignments recorded in [evs], starting from
    [v]. *)
Definition last_commit (evs : list event) (v : value) : value :=
  fold_left (fun v e => match e with EvCommit _ v' => v' | _ => v end) evs v.

(** A reference is frozen when no operation can write to its array any
    more: it is not the working list, or the working list is shared with
    the committed one (and will be copied before the next write). *)
Definition frozen (s : store) (ref : nat) : Prop :=
  ref < length (heap s) /\
  (ref <> nextListeners s \/ nextListeners s = currentListeners s).

(** Well-formed stores: what [createStore] establishes and every
    operation keeps. *)
Record wf (s : store) : Prop := mkWf {
  wf_current : currentListeners s < length (heap s);
  wf_next : nextListeners s < length (heap s);
  wf_ids : ids_below (ndispatch s) (trace s);
  wf_count : forall l, count l (working s) = active_count l (subs s);
  wf_subscribed : forall l h,
    In (EvSubscribe l h) (trace s) ->
    exists b, subs s !! h = Some (l, b) /\
              (b = false -> In (EvUnsubscribe h l) (trace s))
}.

(** [ext_from d s s']: [s'] is a store that code running from [s] can
    reach, all its dispatches being numbered from [d] on. *)
Record ext_from (d : nat) (s s' : store) : Prop := mkExt {
  ext_gate : isDispatching s' = isDispatching s;
  ext_heap : length (heap s) <= length (heap s');
  ext_frozen : forall ref, frozen s ref ->
    frozen s' ref /\ array_at s' ref = array_at s ref;
  ext_ndispatch : ndispatch s <= ndispatch s';
  ext_trace : exists evs,
    trace s' = trace s ++ evs /\
    ids_from d evs /\
    currentState s' = last_commit evs (currentState s) /\
    (isDispatching s = true -> Forall is_emit evs);
  ext_unsubscribed : forall h l,
    subs s !! h = Some (l, false) -> subs s' !! h = Some (l, false);
  ext_gated : isDispatching s = true ->
    heap s' = heap s /\ currentListeners s' = currentListeners s /\
    nextListeners s' = nextListeners s /\ subs s' = subs s /\
    ndispatch s' = ndispatch s
}.

Definition ext (s s' : store) : Prop := ext_from (ndispatch s) s s'.

(** An action that passes the two validations of [dispatch]. *)
Definition valid_action (action : value) : Prop :=
  isPlainObject action = true /\
  typeof (get_prop action "type") <> "undefined"%string.

(** The exception that [dispatch(action)] throws while the gate is set:
    the validations of the action come before the test of the gate. *)
Definition gate_error (action : value) : exn :=
  JsError (if negb (isPlainObject action) then Msg.not_plain_object
           else if String.eqb (typeof (get_prop action "type")) "undefined"
                then Msg.undefined_type
                else Msg.reducers_may_not_dispatch).

(** The store in which [dispatch(action)] calls the reducer. *)
Definition gated (action : value) (s : store) : store :=
  with_isDispatching true
    (log (EvReducer (ndispatch s) action) (with_ndispatch (S (ndispatch s)) s)).

(** The store in which the notification loop of dispatch [d] starts,
    [s1] being the store in which the reducer returned [v]. *)
Definition committing (d : nat) (v : value) (s1 : store) : store :=
  let s2 := with_isDispatching false (log (EvCommit d v) (with_currentState v s1)) in
  with_currentListeners (nextListeners s2) s2.

(** The notification phase as the specification describes it: the
    listeners of a list are called one after the other, in the order of
    the list, each in the store that the call before it left; the first
    exception ends the phase. The list is a value: nothing that a
    listener does to the store changes it. [d] is the number of the
    dispatch, [fuel] the bound given to each call. *)
Fixpoint call_listeners (E : env) (fuel : nat) (d : nat) (ls : list fid) (s : store)
  : answer unit :=
  match ls with
  | [] => Some (Returned tt, s)
  | l :: rest =>
      match call E fuel (body E l []) (log (EvListener d l) s) with
      | None => None
      | Some (Threw e, s') => Some (Threw e, s')
      | Some (Returned _, s') => call_listeners E fuel d rest s'
      end
  end.

(** What [dispatch(action)] hands to its caller when its notification
    phase ended with [r]. *)
Definition dispatch_outcome (action : value) (r : result unit) : result value :=
  match r with
  | Returned _ => Returned action
  | Threw e => Threw e
  end.

(** [store.replaceReducer(nextReducer)] called from outside any client
    code. *)
Definition store_replaceReducer (E : env) (fuel : nat) (nextReducer : value) (s : store)
  : answer value :=
  replaceReducer E fuel (call E fuel) nextReducer s.

(** The call [currentReducer(currentState, action)] that
    [dispatch(action)] makes on the store [s]. *)
Definition reducer_call (E : env) (fuel : nat) (action : value) (s : store)
  : answer value :=
  call E fuel (body E (currentReducer s) [currentState s; action]) (gated action s).

(** Right-to-left application as the specification writes it,
    [f1(f2(...fn(...args)))]: the last function receives the arguments,
    every other function receives the previous result as its only
    argument. *)
Fixpoint right_to_left {T : Type} (undefined : T) (funcs : list (list T -> T))
    (args : list T) : T :=
  match funcs with
  | [] => hd undefined args
  | [f] => f args
  | f :: rest => f [right_to_left undefined rest args]
  end.

(** A reducer whose state parameter has a default value,
    [(state = d, action) => state]: the default is used when the state
    argument is [undefined]. *)
Definition defaulting (d : value) (args : list value) : prog value :=
  match args with
  | [] | VUndefined :: _ => Ret d
  | state :: _ => Ret state
  end.

(** The action [{ type: ActionTypes.REPLACE }]. *)
Definition replace_action (E : env) : value := VObj [("type", VStr (REPLACE E))].

(** A middleware that logs on entry and on exit around [next]:
    [api => next => action => { log(enter); const r = next(action);
    log(exit); return r }]. *)
Definition entering (label : value) : value := VArr [VStr "enter"; label].
Definition exiting (label : value) : value := VArr [VStr "exit"; label].
Definition logger (label : value) : Middleware :=
  fun _ => Ret (fun next action =>
    Emit (entering label)
      (bind (next action) (fun r => Emit (exiting label) (Ret r)))).

(** The store creator that an enhancer receives from [createStore]. *)
Definition base_createStore (E : env) (fuel : nat) : StoreCreator :=
  fun reducer preloadedState =>
    createStore E fuel reducer preloadedState (EnhancerValue VUndefined).

(** The environment once [applyMiddleware] has executed
    [dispatch = compose(...chain)(store.dispatch)]. *)
Definition enhanced_env (E : env) (enhanced : StoreObject) : env :=
  with_dispatch_cell (Some (dispatch_of enhanced)) E.

(** ** Scenarios used to exercise the statements *)

Module Demo.
Definition obj (k : string) (v : value) : value := VObj [(k, v)].
Definition action (name : string) : value := obj "type" (VStr name).

Definition reducer1 : fid := 1.
Definition reducer2 : fid := 2.
Definition dispatching_reducer : fid := 3.
Definition throwing_reducer : fid := 4.
Definition listenerA : fid := 10.
Definition listenerB : fid := 11.
Definition remover : fid := 12.
Definition listenerC : fid := 13.
Definition throwing_listener : fid := 14.

(** What the reducer that dispatches does after its inner call: it
    catches the exception and returns the state unchanged. *)
Definition after_inner (args : list value) (r : result value) : prog value :=
  match r with
  | Returned _ => Ret (VStr "inner dispatch returned")
  | Threw _ => Ret (hd VUndefined args)
  end.

(** A listener that registers [l] the first time it is called:
    [() => { if (!added) { added = true; store.subscribe(l) } }]. *)
Definition subscribe_once (l : fid) : prog value :=
  ReadClient (fun added =>
    match added with
    | VUndefined =>
        WriteClient (VBool true) (CallSubscribe (VFun l) (fun _ => Ret VUndefined))
    | _ => Ret VUndefined
    end).

Definition bodies (f : fid) (args : list value) : prog value :=
  match f with
  | 1 => defaulting (obj "x" (VNum 1)) args
  | 2 => defaulting (obj "y" (VNum 2)) args
  | 3 => CallDispatch (action "INNER") (after_inner args)
  | 4 => Throw (JsThrown (VStr "reducer failed"))
  | 10 => subscribe_once listenerB
  | 11 => Emit (VStr "B") (Ret VUndefined)
  | 12 => CallUnsubscribe 1 propagate
  | 13 => Emit (VStr "C") (Ret VUndefined)
  | 14 => Throw (JsThrown (VStr "listener failed"))
  | _ => Ret VUndefined
  end.

Definition E : env :=
  {| INIT := "@@redux/INIT";
     REPLACE := "@@redux/REPLACE";
     body := bodies;
     as_enhancer := fun _ creator => creator;
     dispatch_cell := None |}.

(** The store after [subscribe] was called for each of [ls]. *)
Definition subscribed (ls : list fid) (s : store) : store :=
  fold_left (fun s l => snd (subscribe (VFun l) s)) ls s.

Definition store1 : store := initial_store reducer1 VUndefined.
Definition storeA : store := subscribed [listenerA] store1.
Definition storeRC : store := subscribed [remover; listenerC] store1.
Definition storeTB : store := subscribed [throwing_listener; listenerB] store1.

(** The store an answer ends in ([s] when there is no answer). *)
Definition final {A : Type} (s : store) (a : answer A) : store :=
  match a with
  | Some (_, s') => s'
  | None => s
  end.
End Demo.

(** Decides that an event is not in an explicit list of events. *)
Ltac absent :=
  let H := fresh in
  intros H; vm_compute in H;
  repeat (destruct H as [H|H]; [discriminate H |]); exact H.

(** ** Further vocabulary *)

(** The action [{ type: ActionTypes.INIT }]. *)
Definition init_action (E : env) : value := VObj [("type", VStr (INIT E))].

(** The store after client code has called [subscribe(l)] for each [l]
    of [ls] in turn. *)
Definition subscribe_each (ls : list fid) (s : store) : store :=
  fold_left (fun s l => snd (subscribe (VFun l) s)) ls s.

(** The wrappers of a middleware chain applied from the last to the
    first: [w1 (w2 (... (wn base)))]. *)
Definition nested (chain : list (DispatchFn -> DispatchFn)) (base : DispatchFn)
  : DispatchFn :=
  fold_right (fun w next => w next) base chain.

(** A middleware that sends the actions of type [name] again, as the
    action [other], through [middlewareAPI.dispatch]:
    [api => next => action =>
       action.type === name ? api.dispatch(other) : next(action)]. *)
Definition redirecting (name : string) (other : value) : Middleware :=
  fun api => Ret (fun next action =>
    match get_prop action "type" with
    | VStr t => if String.eqb t name then api_dispatch_fn api other else next action
    | _ => next action
    end).

(** An observer and the store's listener made for it by
    [observable().subscribe]. *)
Module DemoObserver.
Definition next_fn : fid := 20.
Definition closure : fid := 21.
Definition observer : value := VObj [("next", VFun next_fn)].

(** [next] logs the state it receives: [state => log(state)]. *)
Definition bodies (f : fid) (args : list value) : prog value :=
  match f with
  | 20 => Emit (hd VUndefined args) (Ret VUndefined)
  | _ => Demo.bodies f args
  end.

Definition E0 : env :=
  {| INIT := "@@redux/INIT";
     REPLACE := "@@redux/REPLACE";
     body := bodies;
     as_enhancer := fun _ creator => creator;
     dispatch_cell := None |}.

Definition E : env :=
  {| INIT := "@@redux/INIT";
     REPLACE := "@@redux/REPLACE";
     body := fun f args =>
       if Nat.eqb f closure then observeState E0 observer else bodies f args;
     as_enhancer := fun _ creator => creator;
     dispatch_cell := None |}.
End DemoObserver.

(** * Properties *)

(** ** Arrays of listeners *)

Lemma count_app l a b : count l (a ++ b) = count l a + count l b.
Proof. induction a as [|x a IH]; simpl; [done | rewrite IH; lia]. Qed.

Lemma active_count_app l a b :
  active_count l (a ++ b) = active_count l a + active_count l b.
Proof.
  induction a as [|[x c] a IH]; simpl; [done | rewrite IH; lia].
Qed.

Lemma count_pos_In l arr : 0 < count l arr <-> In l arr.
Proof.
  induction arr as [|x arr IH]; simpl; [split; [lia | tauto] |].
  destruct (Nat.eqb_spec x l) as [->|Hne].
  - split; [auto | lia].
  - rewrite <- IH. split; [intros; right; lia | intros [?|?]; [done | lia]].
Qed.

Lemma indexOf_range l arr :
  (-1 <= indexOf l arr < Z.of_nat (length arr))%Z \/
  (arr = [] /\ indexOf l arr = (-1)%Z).
Proof.
  induction arr as [|x arr IH]; [right; done | left].
  simpl. destruct (Nat.eqb x l); [lia |].
  destruct (Z.ltb_spec (indexOf l arr) 0); [lia |].
  destruct IH as [?|[-> ?]]; simpl in *; lia.
Qed.

Lemma indexOf_found l arr : In l arr -> (0 <= indexOf l arr)%Z.
Proof.
  induction arr as [|x arr IH]; simpl; [tauto |].
  intros Hin. destruct (Nat.eqb_spec x l) as [->|Hne]; [lia |].
  destruct Hin as [?|Hin]; [done |].
  specialize (IH Hin). destruct (Z.ltb_spec (indexOf l arr) 0); lia.
Qed.

Lemma indexOf_missing l arr : ~ In l arr -> indexOf l arr = (-1)%Z.
Proof.
  induction arr as [|x arr IH]; simpl; [done |].
  intros Hin. destruct (Nat.eqb_spec x l) as [->|Hne]; [tauto |].
  rewrite IH by tauto. done.
Qed.

(** On a listener that is in the array, [indexOf] followed by
    [splice(index, 1)] is removal by identity. *)
Lemma splice1_indexOf l arr :
  In l arr -> splice1 (indexOf l arr) arr = remove_first l arr.
Proof.
  unfold splice1. induction arr as [|x arr IH]; [done |].
  intros Hin. simpl indexOf. simpl remove_first.
  destruct (Nat.eqb_spec x l) as [->|Hne].
  - simpl. done.
  - destruct Hin as [?|Hin]; [done |].
    pose proof (indexOf_found _ _ Hin) as H0.
    specialize (IH Hin).
    destruct (Z.ltb_spec (indexOf l arr) 0) as [?|_]; [lia |].
    destruct (Z.ltb_spec (indexOf l arr) 0) as [?|_] in IH; [lia |].
    destruct (Z.ltb_spec (indexOf l arr + 1) 0) as [?|_]; [lia |].
    destruct (indexOf_range l arr) as [Hr|[-> _]]; [| done].
    rewrite Z.min_l in IH by lia.
    rewrite Z.min_l by (rewrite length_cons; lia).
    replace (Z.to_nat (indexOf l arr + 1)) with (S (Z.to_nat (indexOf l arr))) by lia.
    simpl. by rewrite IH.
Qed.

Lemma count_remove_first l l' arr :
  In l arr ->
  count l' (remove_first l arr) + (if Nat.eqb l l' then 1 else 0) = count l' arr.
Proof.
  induction arr as [|x arr IH]; simpl; [tauto |].
  intros Hin. destruct (Nat.eqb_spec x l) as [->|Hne].
  - lia.
  - destruct Hin as [?|Hin]; [done |]. simpl. specialize (IH Hin). lia.
Qed.

Lemma active_count_flip l l' h u :
  u !! h = Some (l, true) ->
  active_count l' (<[h := (l, false)]> u) + (if Nat.eqb l l' then 1 else 0)
  = active_count l' u.
Proof.
  revert h. induction u as [|[x b] u IH]; intros [|h]; simpl; try done.
  - intros [= -> ->]. rewrite andb_false_r, andb_true_r.
    destruct (Nat.eqb l l'); lia.
  - intros Hh. specialize (IH _ Hh). revert IH.
    repeat case_match; lia.
Qed.

Lemma active_count_pos l h u :
  u !! h = Some (l, true) -> 0 < active_count l u.
Proof.
  revert h. induction u as [|[x b] u IH]; intros [|h]; simpl; try done.
  - intros [= -> ->]. rewrite Nat.eqb_refl. simpl. lia.
  - intros Hh. specialize (IH _ Hh). case_match; lia.
Qed.

(** ** Events *)

Lemma ids_from_app d a b : ids_from d (a ++ b) <-> ids_from d a /\ ids_from d b.
Proof. apply Forall_app. Qed.

Lemma ids_from_mono d d' evs : d <= d' -> ids_from d' evs -> ids_from d evs.
Proof.
  intros Hle H. eapply Forall_impl; [exact H |]. intros e He d0 Hd0.
  specialize (He _ Hd0). lia.
Qed.

Lemma ids_below_mono n n' evs : n <= n' -> ids_below n evs -> ids_below n' evs.
Proof.
  intros Hle H. eapply Forall_impl; [exact H |]. intros e He d0 Hd0.
  specialize (He _ Hd0). lia.
Qed.

Lemma ids_from_emit d evs : Forall is_emit evs -> ids_from d evs.
Proof. intros H. eapply Forall_impl; [exact H |]. by intros [] ?. Qed.

Lemma last_commit_app a b v :
  last_commit (a ++ b) v = last_commit b (last_commit a v).
Proof. apply fold_left_app. Qed.

Lemma last_commit_emit evs v : Forall is_emit evs -> last_commit evs v = v.
Proof.
  intros H. revert v. induction H as [|e evs He _ IH]; intros v; [done |].
  destruct e; try done. apply IH.
Qed.

Lemma listeners_of_app d a b :
  listeners_of d (a ++ b) = listeners_of d a ++ listeners_of d b.
Proof.
  induction a as [|e a IH]; [done |].
  destruct e; simpl; try done.
  destruct (Nat.eqb d0 d); simpl; by rewrite IH.
Qed.

(** Events of later dispatches are not calls made by the loop of [d]. *)
Lemma listeners_of_later d d' evs :
  d < d' -> ids_from d' evs -> listeners_of d evs = [].
Proof.
  intros Hlt H. induction H as [|e evs He _ IH]; [done |].
  destruct e; simpl; try done.
  destruct (Nat.eqb_spec d0 d) as [->|_]; [| done].
  specialize (He d eq_refl). lia.
Qed.

Lemma listeners_of_In d l evs :
  In l (listeners_of d evs) <-> In (EvListener d l) evs.
Proof.
  induction evs as [|e evs IH]; [done |].
  destruct e; simpl; try (rewrite IH; split; [tauto | intros [[=]|?]; tauto]).
  destruct (Nat.eqb_spec d0 d) as [->|Hne]; simpl; rewrite IH.
  - split; intros [?|?]; try tauto; [left; congruence | left; congruence].
  - split; [tauto | intros [[=]|?]; [done | tauto]].
Qed.

(** ** The relation between a store and its successors *)

Lemma ext_from_refl d s : ext_from d s s.
Proof.
  split; try done.
  - exists []. rewrite app_nil_r. repeat split; try done; constructor.
Qed.

Lemma ext_from_trans d s1 s2 s3 :
  ext_from d s1 s2 -> ext_from d s2 s3 -> ext_from d s1 s3.
Proof.
  intros [G1 H1 F1 N1 (e1 & T1 & I1 & C1 & M1) U1 X1]
         [G2 H2 F2 N2 (e2 & T2 & I2 & C2 & M2) U2 X2].
  split.
  - congruence.
  - lia.
  - intros ref Hf. destruct (F1 _ Hf) as [Hf1 A1].
    destruct (F2 _ Hf1) as [Hf2 A2]. split; [done | congruence].
  - lia.
  - exists (e1 ++ e2). rewrite T2, T1, app_assoc. split; [done |].
    split; [by apply ids_from_app |].
    split; [by rewrite last_commit_app, <- C1 |].
    intros Hd. apply Forall_app. split; [auto |]. apply M2. congruence.
  - auto.
  - intros Hd. destruct (X1 Hd) as (? & ? & ? & ? & ?).
    destruct X2 as (? & ? & ? & ? & ?); [congruence |].
    repeat split; congruence.
Qed.

Lemma ext_from_mono d d' s s' : d <= d' -> ext_from d' s s' -> ext_from d s s'.
Proof.
  intros Hle [G H F N (e & T & I & C & M) U X]. split; try done.
  exists e. repeat split; try done. by eapply ids_from_mono.
Qed.

Lemma ext_trans s1 s2 s3 : ext s1 s2 -> ext s2 s3 -> ext s1 s3.
Proof.
  unfold ext. intros H1 H2. eapply ext_from_trans; [done |].
  eapply ext_from_mono; [| done]. apply H1.
Qed.

(** ** Copy on write *)

Lemma array_at_lookup s ref arr :
  heap s !! ref = Some arr -> array_at s ref = arr.
Proof. unfold array_at. by intros ->. Qed.

(** Writing a new content to the working list after
    [ensureCanMutateNextListeners] changes no frozen array. *)
Lemma cow_write s w :
  currentListeners s < length (heap s) ->
  nextListeners s < length (heap s) ->
  let s2 := ensureCanMutateNextListeners s in
  let s3 := write_next w s2 in
  working s2 = working s /\
  working s3 = w /\
  currentListeners s3 < length (heap s3) /\
  nextListeners s3 < length (heap s3) /\
  length (heap s) <= length (heap s3) /\
  (forall ref, frozen s ref -> frozen s3 ref /\ array_at s3 ref = array_at s ref) /\
  currentReducer s3 = currentReducer s /\ currentState s3 = currentState s /\
  isDispatching s3 = isDispatching s /\ subs s3 = subs s /\
  ndispatch s3 = ndispatch s /\ trace s3 = trace s /\
  currentListeners s3 = currentListeners s.
Proof.
  intros Hc Hn. unfold write_next, ensureCanMutateNextListeners.
  destruct (Nat.eqb_spec (nextListeners s) (currentListeners s)) as [Heq|Hne];
    cbn zeta.
  - unfold working, array_at, frozen, committed, array_at. simpl.
    rewrite length_insert, length_app. simpl.
    rewrite lookup_app_r, Nat.sub_diag by lia. simpl.
    rewrite list_lookup_insert_eq by (rewrite length_app; simpl; lia). simpl.
    rewrite Heq. repeat split; try done; try lia.
    rewrite list_lookup_insert_ne by lia.
    rewrite lookup_app_l by lia. done.
  - unfold working, array_at, frozen. simpl.
    rewrite length_insert.
    rewrite list_lookup_insert_eq by lia. simpl.
    repeat split; try done; try lia.
    rewrite list_lookup_insert_ne; [done |].
    destruct H as [_ [?|?]]; congruence.
Qed.

(** ** The operations that do not call client code *)

Lemma frozen_same s s' ref :
  heap s' = heap s -> nextListeners s' = nextListeners s ->
  currentListeners s' = currentListeners s ->
  frozen s ref -> frozen s' ref /\ array_at s' ref = array_at s ref.
Proof. unfold frozen, array_at. intros -> -> ->. done. Qed.

Lemma getState_same s : snd (getState s) = s.
Proof. unfold getState. by destruct (isDispatching s). Qed.

(** What a successful [subscribe] does to the variables of the store. *)
Lemma subscribe_spec l s :
  wf s -> isDispatching s = false ->
  exists s',
    subscribe (VFun l) s = (Returned (length (subs s)), s') /\
    working s' = working s ++ [l] /\
    subs s' = subs s ++ [(l, true)] /\
    trace s' = trace s ++ [EvSubscribe l (length (subs s))] /\
    currentListeners s' = currentListeners s /\
    currentReducer s' = currentReducer s /\ currentState s' = currentState s /\
    isDispatching s' = false /\ ndispatch s' = ndispatch s /\
    length (heap s) <= length (heap s') /\
    currentListeners s' < length (heap s') /\ nextListeners s' < length (heap s') /\
    (forall ref, frozen s ref -> frozen s' ref /\ array_at s' ref = array_at s ref).
Proof.
  intros W Hd. unfold subscribe. rewrite Hd. eexists. split; [reflexivity |].
  set (s1 := with_subs (subs s ++ [(l, true)]) s).
  destruct (cow_write s1 (working (ensureCanMutateNextListeners s1) ++ [l]))
    as (Hw2 & Hw3 & Hc & Hn & Hl & Hf & HR & HS & HD & HU & HN & HT & HC);
    [apply W | apply W |].
  unfold push_next.
  set (s3 := write_next _ (ensureCanMutateNextListeners s1)) in *.
  rewrite Hw2 in Hw3. clearbody s3.
  subst s1. unfold working, frozen, array_at in *. simpl in *.
  split_and!; try done; try congruence.
Qed.

Lemma subscribe_ok listener s r s' :
  wf s -> subscribe listener s = (r, s') -> wf s' /\ ext s s'.
Proof.
  intros W H.
  assert (Hsame : s' = s -> wf s' /\ ext s s')
    by (intros ->; split; [done | apply ext_from_refl]).
  destruct listener; try (injection H as _ <-; by apply Hsame).
  destruct (isDispatching s) eqn:Hd;
    [unfold subscribe in H; rewrite Hd in H; injection H as _ <-; by apply Hsame |].
  destruct (subscribe_spec f s W Hd)
    as (s2 & He & Hw & Hu & Ht & Hc & _ & HS & HD & HN & Hl & Hcl & Hnl & Hf).
  rewrite He in H. injection H as _ <-.
  split; split; try done; try lia; try congruence.
  - rewrite HN, Ht. apply Forall_app. split; [apply W |].
    constructor; [done | constructor].
  - intros l. rewrite Hw, Hu, count_app, active_count_app. simpl.
    rewrite andb_true_r. by rewrite (wf_count _ W).
  - intros l h. rewrite Ht, Hu. intros [Hin|[[= <- <-]|[]]]%in_app_or.
    + destruct (wf_subscribed _ W _ _ Hin) as (b & Hb & Hun).
      exists b. split; [by apply lookup_app_l_Some |].
      intros Hf'. apply in_or_app. left. auto.
    + exists true. split; [| done].
      rewrite lookup_app_r, Nat.sub_diag by lia. done.
  - exists [EvSubscribe f (length (subs s))]. repeat split; try done.
    + constructor; [done | constructor].
    + congruence.
  - intros h l Hh. rewrite Hu. by apply lookup_app_l_Some.
Qed.

(** What a successful [unsubscribe] does to the variables of the store:
    one entry of the working list is removed by identity. *)
Lemma unsubscribe_spec h l s :
  wf s -> isDispatching s = false -> subs s !! h = Some (l, true) ->
  exists s',
    unsubscribe h s = (Returned VUndefined, s') /\
    working s' = remove_first l (working s) /\
    In l (working s) /\
    subs s' = <[h := (l, false)]> (subs s) /\
    trace s' = trace s ++ [EvUnsubscribe h l] /\
    currentListeners s' = currentListeners s /\
    currentReducer s' = currentReducer s /\ currentState s' = currentState s /\
    isDispatching s' = false /\ ndispatch s' = ndispatch s /\
    length (heap s) <= length (heap s') /\
    currentListeners s' < length (heap s') /\ nextListeners s' < length (heap s') /\
    (forall ref, frozen s ref -> frozen s' ref /\ array_at s' ref = array_at s ref).
Proof.
  intros W Hd Hh. unfold unsubscribe. rewrite Hh, Hd. simpl.
  eexists. split; [reflexivity |].
  assert (Hin : In l (working s)).
  { apply count_pos_In. rewrite (wf_count _ W). by eapply active_count_pos. }
  set (s1 := with_subs (<[h:=(l, false)]> (subs s)) s).
  set (s2 := ensureCanMutateNextListeners s1).
  destruct (cow_write s1 (splice1 (indexOf l (working s2)) (working s2)))
    as (Hw2 & Hw3 & Hc & Hn & Hl & Hf & HR & HS & HD & HU & HN & HT & HC);
    [apply W | apply W |].
  fold s2 in Hw2, Hw3, Hc, Hn, Hl, Hf, HR, HS, HD, HU, HN, HT, HC.
  set (s3 := write_next _ s2) in *.
  rewrite Hw2 in Hw3. clearbody s3. clear Hw2. clearbody s2.
  change (working s1) with (working s) in Hw3.
  rewrite splice1_indexOf in Hw3 by done.
  subst s1. unfold working, frozen, array_at in *. simpl in *.
  split_and!; try done; try congruence.
Qed.

Lemma unsubscribe_ok h s r s' :
  wf s -> unsubscribe h s = (r, s') -> wf s' /\ ext s s'.
Proof.
  intros W H.
  assert (Hsame : s' = s -> wf s' /\ ext s s')
    by (intros ->; split; [done | apply ext_from_refl]).
  unfold unsubscribe in H.
  destruct (subs s !! h) as [[l [|]]|] eqn:Hh; simpl in H;
    try (injection H as _ <-; by apply Hsame).
  destruct (isDispatching s) eqn:Hd; [injection H as _ <-; by apply Hsame |].
  destruct (unsubscribe_spec h l s W Hd Hh)
    as (s2 & He & Hw & Hin & Hu & Ht & Hc & _ & HS & HD & HN & Hl & Hcl & Hnl & Hf).
  unfold unsubscribe in He. rewrite Hh, Hd in He. simpl in He.
  rewrite He in H. injection H as _ <-.
  split; split; try done; try lia; try congruence.
  - rewrite HN, Ht. apply Forall_app. split; [apply W |].
    constructor; [done | constructor].
  - intros l'. rewrite Hw, Hu.
    pose proof (count_remove_first l l' _ Hin) as H1.
    pose proof (active_count_flip l l' h _ Hh) as H2.
    rewrite (wf_count _ W) in H1. lia.
  - intros l' h'. rewrite Ht, Hu. intros [Hin'|[[=]|[]]]%in_app_or.
    destruct (wf_subscribed _ W _ _ Hin') as (b & Hb & Hun).
    destruct (decide (h' = h)) as [->|Hne].
    + rewrite Hh in Hb. injection Hb as <- <-.
      exists false. split; [| intros _; apply in_or_app; right; by left].
      apply list_lookup_insert_eq. by eapply lookup_lt_Some.
    + exists b. rewrite list_lookup_insert_ne by done. split; [done |].
      intros Hb'. apply in_or_app. left. auto.
  - exists [EvUnsubscribe h l]. repeat split; try done.
    + constructor; [done | constructor].
    + congruence.
  - intros h' l' Hh'. rewrite Hu.
    rewrite list_lookup_insert_ne; [done |]. congruence.
Qed.

(** ** Dispatch *)

Lemma wf_fields s s' evs :
  wf s ->
  heap s' = heap s -> nextListeners s' = nextListeners s ->
  (currentListeners s' = currentListeners s \/
   currentListeners s' = nextListeners s) ->
  subs s' = subs s ->
  trace s' = trace s ++ evs ->
  ids_below (ndispatch s') evs -> ndispatch s <= ndispatch s' ->
  (forall l h, ~ In (EvSubscribe l h) evs) ->
  wf s'.
Proof.
  intros W Hh Hn Hc Hu Ht Hi Hd Hs. split.
  - rewrite Hh. destruct Hc as [->| ->]; apply W.
  - rewrite Hh, Hn. apply W.
  - rewrite Ht. apply Forall_app. split; [| done].
    eapply ids_below_mono; [done | apply W].
  - intros l. unfold working, array_at. rewrite Hh, Hn, Hu. apply W.
  - intros l h. rewrite Ht, Hu. intros [Hin|Hin]%in_app_or; [| by apply Hs in Hin].
    destruct (wf_subscribed _ W _ _ Hin) as (b & Hb & Hun).
    exists b. split; [done |]. intros Hb'. apply in_or_app. left. auto.
Qed.

Lemma ext_from_fields d s s' evs :
  isDispatching s = false -> isDispatching s' = false ->
  heap s' = heap s -> nextListeners s' = nextListeners s ->
  (currentListeners s' = currentListeners s \/
   currentListeners s' = nextListeners s) ->
  subs s' = subs s -> ndispatch s <= ndispatch s' ->
  trace s' = trace s ++ evs -> ids_from d evs ->
  currentState s' = last_commit evs (currentState s) ->
  ext_from d s s'.
Proof.
  intros Hd Hd' Hh Hn Hc Hu HN Ht Hi HS. split; try congruence.
  - rewrite Hh. done.
  - unfold frozen, array_at. rewrite Hh, Hn. intros ref [Hr Ho].
    split; [| done]. split; [done |].
    destruct Hc as [->| ->]; [done | by right].
  - exists evs. split_and!; try done. congruence.
Qed.

(** Code that runs while the gate is set changes nothing but the
    reducer reference and the output. *)
Lemma gated_run s s' :
  isDispatching s = true -> ext s s' ->
  isDispatching s' = true /\ currentState s' = currentState s /\
  heap s' = heap s /\ currentListeners s' = currentListeners s /\
  nextListeners s' = nextListeners s /\ subs s' = subs s /\
  ndispatch s' = ndispatch s /\
  exists evs, trace s' = trace s ++ evs /\ Forall is_emit evs.
Proof.
  intros Hd [G _ _ _ (evs & T & _ & C & M) _ X].
  destruct (X Hd) as (? & ? & ? & ? & ?).
  split_and!; try done; try congruence.
  - rewrite C. apply last_commit_emit. auto.
  - exists evs. auto.
Qed.

Lemma listeners_of_emit d evs : Forall is_emit evs -> listeners_of d evs = [].
Proof.
  intros H. induction H as [|e evs He _ IH]; [done |]. by destruct e.
Qed.

Lemma Forall_emit_no_subscribe evs l h :
  Forall is_emit evs -> ~ In (EvSubscribe l h) evs.
Proof.
  intros H Hin. rewrite Forall_forall in H.
  apply list_elem_of_In in Hin. by apply H in Hin.
Qed.

Lemma ext_from_same d s s' evs :
  isDispatching s' = isDispatching s -> heap s' = heap s ->
  nextListeners s' = nextListeners s -> currentListeners s' = currentListeners s ->
  subs s' = subs s -> ndispatch s' = ndispatch s ->
  currentState s' = currentState s ->
  trace s' = trace s ++ evs -> Forall is_emit evs ->
  ext_from d s s'.
Proof.
  intros Hd Hh Hn Hc Hu HN HS Ht He. split; try congruence; try lia.
  - rewrite Hh. done.
  - intros ref Hr. by apply frozen_same.
  - exists evs. split_and!; try done.
    + by apply ids_from_emit.
    + by rewrite last_commit_emit.
  - done.
Qed.

Lemma valid_action_or_not action : valid_action action \/ ~ valid_action action.
Proof.
  unfold valid_action. destruct (isPlainObject action); [| right; by intros []].
  destruct (String.eqb_spec (typeof (get_prop action "type")) "undefined"); [right | left].
  - by intros [].
  - done.
Qed.

Section ExecOk.
Variable E : env.
Variable gas0 : nat.
Variable invoke : prog value -> store -> answer value.
Hypothesis invoke_ok : forall p s r s',
  wf s -> invoke p s = Some (r, s') -> wf s' /\ ext s s'.

Lemma wf_gated action s : wf s -> wf (gated action s).
Proof.
  intros W. eapply (wf_fields s _ [EvReducer (ndispatch s) action]);
    try done; simpl; auto.
  - constructor; [| constructor]. intros d' [= <-]. lia.
  - intros l h [[=]|[]].
Qed.

Lemma dispatch_unfold action s :
  isPlainObject action = true ->
  typeof (get_prop action "type") <> "undefined"%string ->
  isDispatching s = false ->
  dispatch E gas0 invoke action s =
  match invoke (body E (currentReducer s) [currentState s; action]) (gated action s) with
  | None => None
  | Some (Threw e, s1) => Some (Threw e, with_isDispatching false s1)
  | Some (Returned v, s1) =>
      let s3 := committing (ndispatch s) v s1 in
      match notify E invoke gas0 (nextListeners s3) (ndispatch s) 0 s3 with
      | None => None
      | Some (Threw e, s4) => Some (Threw e, s4)
      | Some (Returned _, s4) => Some (Returned action, s4)
      end
  end.
Proof.
  intros Hp Ht Hd. unfold dispatch. rewrite Hp, Hd. simpl.
  apply String.eqb_neq in Ht. rewrite Ht. reflexivity.
Qed.

Lemma dispatch_invalid action s :
  ~ valid_action action \/ isDispatching s = true ->
  exists e, dispatch E gas0 invoke action s = Some (Threw e, s).
Proof.
  unfold dispatch, valid_action. intros H.
  destruct (isPlainObject action); simpl; [| eauto].
  destruct (String.eqb_spec (typeof (get_prop action "type")) "undefined");
    [eauto |].
  destruct (isDispatching s); [eauto |].
  destruct H as [H|H]; [destruct H; done | done].
Qed.

(** After the reducer has thrown. *)
Lemma reducer_threw_ok action s s1 :
  wf s -> isDispatching s = false ->
  wf s1 -> ext (gated action s) s1 ->
  let s' := with_isDispatching false s1 in
  wf s' /\ ext s s' /\ currentState s' = currentState s /\
  exists evs, trace s' = trace s ++ EvReducer (ndispatch s) action :: evs /\
              Forall is_emit evs.
Proof.
  intros W Hd W1 X. destruct (gated_run (gated action s) s1 eq_refl X)
    as (G & C & H & Cl & Nl & U & N & evs & T & M).
  simpl in *. rewrite <- app_assoc in T. simpl in T.
  assert (Hids : ids_from (ndispatch s) (EvReducer (ndispatch s) action :: evs)).
  { constructor; [| by apply ids_from_emit]. intros d' [= <-]. lia. }
  split_and!.
  - eapply (wf_fields s); simpl; try done; auto.
    + rewrite N. constructor.
      * intros d' [= <-]. lia.
      * eapply Forall_impl; [exact M |]. by intros [].
    + lia.
    + intros l h [[=]|Hin]. by eapply Forall_emit_no_subscribe.
  - eapply ext_from_fields; simpl; try done; auto; try lia.
    simpl. rewrite C. unfold last_commit. simpl.
    symmetry. by apply last_commit_emit.
  - done.
  - eauto.
Qed.

(** After the reducer has returned [v]. *)
Lemma committing_ok action v s s1 :
  wf s -> isDispatching s = false ->
  wf s1 -> ext (gated action s) s1 ->
  let d := ndispatch s in
  let s3 := committing d v s1 in
  wf s3 /\ ext_from d s s3 /\ isDispatching s3 = false /\
  ndispatch s3 = S d /\ currentState s3 = v /\
  frozen s3 (nextListeners s3) /\
  array_at s3 (nextListeners s3) = working s /\
  exists evs, trace s3 = trace s ++ EvReducer d action :: evs ++ [EvCommit d v] /\
              Forall is_emit evs.
Proof.
  intros W Hd W1 X. destruct (gated_run (gated action s) s1 eq_refl X)
    as (G & C & H & Cl & Nl & U & N & evs & T & M).
  simpl in *. rewrite <- app_assoc in T. simpl in T.
  assert (Ht : trace (committing (ndispatch s) v s1)
               = trace s ++ EvReducer (ndispatch s) action :: evs ++ [EvCommit (ndispatch s) v]).
  { simpl. rewrite T, <- app_assoc. done. }
  split_and!.
  - eapply (wf_fields s); simpl; try done; auto.
    + simpl. rewrite N. constructor; [intros d' [= <-]; lia |].
      apply Forall_app. split.
      * eapply Forall_impl; [exact M |]. by intros [].
      * constructor; [| constructor]. intros d' [= <-]. lia.
    + simpl. lia.
    + intros l h [[=]|[Hin|[[=]|[]]]%in_app_or].
      by eapply Forall_emit_no_subscribe.
  - eapply ext_from_fields; simpl; try done; auto; try lia.
    + constructor; [intros d' [= <-]; lia |].
      apply ids_from_app. split; [by apply ids_from_emit |].
      constructor; [| constructor]. intros d' [= <-]. lia.
    + unfold last_commit. simpl. by rewrite fold_left_app.
  - done.
  - simpl. lia.
  - done.
  - split; simpl; [| by right]. rewrite H, Nl. apply W.
  - unfold working, array_at. simpl. by rewrite H, Nl.
  - eauto.
Qed.

(** The notification loop: its calls follow the array it was given,
    whatever the listeners do to the working list meanwhile. *)
Lemma notify_spec gas listeners d : forall i s r s',
  wf s -> isDispatching s = false -> d < ndispatch s ->
  frozen s listeners ->
  notify E invoke gas listeners d i s = Some (r, s') ->
  wf s' /\ ext_from d s s' /\
  exists evs, trace s' = trace s ++ evs /\
    match r with
    | Returned _ => listeners_of d evs = drop i (array_at s listeners)
    | Threw e => exists k l sk,
        array_at s listeners !! (i + k) = Some l /\
        invoke (body E l []) sk = Some (Threw e, s') /\
        listeners_of d evs = take (S k) (drop i (array_at s listeners))
    end.
Proof.
  induction gas as [|gas IH]; intros i s r s' W Hd Hlt Hf H; [done |].
  simpl in H. destruct (array_at s listeners !! i) as [l|] eqn:Hi.
  - set (sl := log (EvListener d l) s) in *.
    assert (Wl : wf sl).
    { eapply (wf_fields s sl [EvListener d l]); try done; auto.
      - constructor; [| constructor]. intros d' [= <-]. done.
      - intros l0 h [[=]|[]]. }
    assert (Xl : ext_from d s sl).
    { eapply (ext_from_fields d s sl [EvListener d l]); try done; auto.
      constructor; [| constructor]. intros d' [= <-]. done. }
    destruct (invoke (body E l []) sl) as [[[v|e] s1]|] eqn:Hinv; [| | done].
    + destruct (invoke_ok _ _ _ _ Wl Hinv) as [W1 X1].
      assert (X1' : ext_from d sl s1)
        by (eapply ext_from_mono; [| exact X1]; simpl; lia).
      destruct (ext_frozen _ _ _ X1 listeners) as [Hf1 Ha1]; [done |].
      change (array_at sl listeners) with (array_at s listeners) in Ha1.
      destruct (ext_trace _ _ _ X1) as (evs1 & T1 & I1 & _).
      destruct (IH (S i) s1 r s' W1) as (W' & X' & evs2 & T2 & Hr); try done.
      { by rewrite (ext_gate _ _ _ X1). }
      { pose proof (ext_ndispatch _ _ _ X1). simpl in *. lia. }
      split; [done |]. split.
      { eapply ext_from_trans; [exact Xl |].
        eapply ext_from_trans; [exact X1' | exact X']. }
      exists (EvListener d l :: evs1 ++ evs2).
      split.
      { rewrite T2, T1. simpl. rewrite <- !app_assoc. done. }
      assert (Hnone : listeners_of d evs1 = [])
        by (eapply listeners_of_later; [| exact I1]; done).
      rewrite (drop_S _ _ _ Hi), Ha1 in *.
      simpl. rewrite Nat.eqb_refl, listeners_of_app, Hnone. simpl.
      destruct r as [?|?]; [by rewrite Hr |].
      destruct Hr as (k & l' & sk & Hk & Hthrow & Hr). exists (S k), l', sk.
      split; [by rewrite <- Hk, Nat.add_succ_r |]. split; [done |].
      simpl. by rewrite Hr.
    + injection H as <- <-.
      destruct (invoke_ok _ _ _ _ Wl Hinv) as [W1 X1].
      assert (X1' : ext_from d sl s1)
        by (eapply ext_from_mono; [| exact X1]; simpl; lia).
      destruct (ext_trace _ _ _ X1) as (evs1 & T1 & I1 & _).
      split; [done |]. split; [by eapply ext_from_trans |].
      exists (EvListener d l :: evs1). split.
      { rewrite T1. simpl. rewrite <- app_assoc. done. }
      exists 0, l, sl. rewrite (drop_S _ _ _ Hi), Nat.add_0_r. simpl.
      split; [done |]. split; [done |].
      rewrite Nat.eqb_refl, take_0.
      by rewrite (listeners_of_later d (ndispatch s) evs1).
  - injection H as <- <-. split; [done |]. split; [apply ext_from_refl |].
    exists []. rewrite app_nil_r. split; [done |].
    apply lookup_ge_None in Hi. by rewrite drop_ge.
Qed.

(** [dispatch] keeps the store well formed; the calls of its loop are
    a prefix of the working list it found, and the whole of it when it
    returns. *)
Lemma dispatch_spec action s r s' :
  wf s -> dispatch E gas0 invoke action s = Some (r, s') ->
  wf s' /\ ext s s' /\
  (isDispatching s = false ->
   exists evs k,
     trace s' = trace s ++ evs /\
     listeners_of (ndispatch s) evs = take k (working s) /\
     (forall v, r = Returned v -> length (working s) <= k /\ v = action)).
Proof.
  intros W H.
  destruct (isDispatching s) eqn:Hd.
  { destruct (dispatch_invalid action s) as [e He]; [by right |].
    rewrite He in H. injection H as <- <-.
    split; [done |]. split; [apply ext_from_refl | done]. }
  destruct (valid_action_or_not action) as [[Hp Ht]|Hinv].
  2:{ destruct (dispatch_invalid action s) as [e He]; [by left |].
      rewrite He in H. injection H as <- <-.
      split; [done |]. split; [apply ext_from_refl |].
      intros _. exists [], 0. rewrite app_nil_r, take_0. done. }
  rewrite dispatch_unfold in H by done.
  pose proof (wf_gated action s W) as Wg.
  destruct (invoke _ (gated action s)) as [[[v|e] s1]|] eqn:Hinv; [| | done].
  - destruct (invoke_ok _ _ _ _ Wg Hinv) as [W1 X1].
    destruct (committing_ok action v s s1 W Hd W1 X1)
      as (W3 & X3 & Hd3 & N3 & _ & Hf3 & Ha3 & evs0 & T3 & M3).
    cbn zeta in H.
    set (s3 := committing (ndispatch s) v s1) in *.
    destruct (notify E invoke gas0 (nextListeners s3) (ndispatch s) 0 s3)
      as [[r4 s4]|] eqn:Hn; [| done].
    assert (Hlt : ndispatch s < ndispatch s3) by lia.
    destruct (notify_spec _ _ _ _ _ _ _ W3 Hd3 Hlt Hf3 Hn)
      as (W4 & X4 & evs & T4 & Hr).
    rewrite drop_0, Ha3 in Hr.
    assert (Hs' : s' = s4) by (destruct r4; by injection H as _ <-).
    subst s'. split; [done |].
    split; [by eapply ext_from_trans |].
    intros _.
    assert (H0 : listeners_of (ndispatch s)
              (EvReducer (ndispatch s) action :: evs0 ++ [EvCommit (ndispatch s) v]) = []).
    { simpl. rewrite listeners_of_app, listeners_of_emit by done. done. }
    exists ((EvReducer (ndispatch s) action :: evs0 ++ [EvCommit (ndispatch s) v]) ++ evs).
    destruct r4 as [[]|e].
    + exists (length (working s)). injection H as <-.
      rewrite T4, T3, <- app_assoc, listeners_of_app, H0, Hr, firstn_all.
      split_and!; try done. by intros v0 [= <-].
    + injection H as <-. destruct Hr as (k & l & sk & Hk & _ & Hr). exists (S k).
      rewrite T4, T3, <- app_assoc, listeners_of_app, H0, Hr.
      split_and!; done.
  - injection H as <- <-.
    destruct (invoke_ok _ _ _ _ Wg Hinv) as [W1 X1].
    destruct (reducer_threw_ok action s s1 W Hd W1 X1)
      as (W' & X' & _ & evs & T & M).
    split; [done |]. split; [done |]. intros _.
    exists (EvReducer (ndispatch s) action :: evs), 0.
    split_and!; try done.
    simpl. by rewrite listeners_of_emit.
Qed.

Lemma with_currentReducer_ok f s :
  wf s -> wf (with_currentReducer f s) /\ ext s (with_currentReducer f s).
Proof.
  intros W. split.
  - eapply (wf_fields s _ []); try done; simpl; auto.
    + by rewrite app_nil_r.
    + constructor.
  - eapply (ext_from_same _ s _ []); try done. simpl. by rewrite app_nil_r.
Qed.

Lemma log_emit_ok v s :
  wf s -> wf (log (EvEmit v) s) /\ ext s (log (EvEmit v) s).
Proof.
  intros W. split.
  - eapply (wf_fields s _ [EvEmit v]); try done; simpl; auto.
    + constructor; [done | constructor].
    + intros l h [[=]|[]].
  - eapply (ext_from_same _ s _ [EvEmit v]); try done.
    constructor; [done | constructor].
Qed.

Lemma with_client_ok v s :
  wf s -> wf (with_client v s) /\ ext s (with_client v s).
Proof.
  intros W. split.
  - eapply (wf_fields s _ []); try done; simpl; auto.
    + by rewrite app_nil_r.
    + constructor.
  - eapply (ext_from_same _ s _ []); try done. simpl. by rewrite app_nil_r.
Qed.

Lemma replaceReducer_ok nextReducer s r s' :
  wf s -> replaceReducer E gas0 invoke nextReducer s = Some (r, s') ->
  wf s' /\ ext s s'.
Proof.
  intros W H.
  assert (Hsame : Some (Threw (JsError Msg.nextReducer_not_function), s) = Some (r, s')
                  -> wf s' /\ ext s s')
    by (intros [= <- <-]; split; [done | apply ext_from_refl]).
  destruct nextReducer; try by apply Hsame.
  simpl in H.
  destruct (with_currentReducer_ok f s W) as [W1 X1].
  destruct (dispatch E gas0 invoke _ (with_currentReducer f s))
    as [[r2 s2]|] eqn:Hdis; [| done].
  destruct (dispatch_spec _ _ _ _ W1 Hdis) as (W2 & X2 & _).
  assert (s' = s2) as -> by (destruct r2; by injection H as _ <-).
  split; [done |]. by eapply ext_trans.
Qed.

Lemma api_dispatch_ok action s r s' :
  wf s -> api_dispatch E invoke action s = Some (r, s') -> wf s' /\ ext s s'.
Proof.
  intros W H. unfold api_dispatch in H.
  destruct (dispatch_cell E) as [f|].
  - by eapply invoke_ok.
  - injection H as <- <-. split; [done | apply ext_from_refl].
Qed.

(** Every piece of client code keeps the store well formed and leads
    to a successor of the store it started from. *)
Lemma exec_ok {A : Type} (p : prog A) : forall s r s',
  wf s -> exec E gas0 invoke p s = Some (r, s') -> wf s' /\ ext s s'.
Proof.
  induction p as [a|e|k IH|l k IH|h k IH|a k IH|n k IH|a k IH|v k IH|k IH|v k IH];
    intros s r s' W H; simpl in H.
  - injection H as <- <-. split; [done | apply ext_from_refl].
  - injection H as <- <-. split; [done | apply ext_from_refl].
  - pose proof (getState_same s) as Hg.
    destruct (getState s) as [r0 s0]. simpl in Hg. subst s0. by eapply IH.
  - destruct (subscribe l s) as [r0 s0] eqn:Hs.
    destruct (subscribe_ok _ _ _ _ W Hs) as [W0 X0].
    destruct (IH _ _ _ _ W0 H) as [W' X']. split; [done | by eapply ext_trans].
  - destruct (unsubscribe h s) as [r0 s0] eqn:Hs.
    destruct (unsubscribe_ok _ _ _ _ W Hs) as [W0 X0].
    destruct (IH _ _ _ _ W0 H) as [W' X']. split; [done | by eapply ext_trans].
  - destruct (dispatch E gas0 invoke a s) as [[r0 s0]|] eqn:Hs; [| done].
    destruct (dispatch_spec _ _ _ _ W Hs) as (W0 & X0 & _).
    destruct (IH _ _ _ _ W0 H) as [W' X']. split; [done | by eapply ext_trans].
  - destruct (replaceReducer E gas0 invoke n s) as [[r0 s0]|] eqn:Hs; [| done].
    destruct (replaceReducer_ok _ _ _ _ W Hs) as [W0 X0].
    destruct (IH _ _ _ _ W0 H) as [W' X']. split; [done | by eapply ext_trans].
  - destruct (api_dispatch E invoke a s) as [[r0 s0]|] eqn:Hs; [| done].
    destruct (api_dispatch_ok _ _ _ _ W Hs) as [W0 X0].
    destruct (IH _ _ _ _ W0 H) as [W' X']. split; [done | by eapply ext_trans].
  - destruct (log_emit_ok v s W) as [W0 X0].
    destruct (IH _ _ _ W0 H) as [W' X']. split; [done | by eapply ext_trans].
  - by eapply IH.
  - destruct (with_client_ok v s W) as [W0 X0].
    destruct (IH _ _ _ W0 H) as [W' X']. split; [done | by eapply ext_trans].
Qed.
End ExecOk.

Lemma call_ok E fuel : forall p s r s',
  wf s -> call E fuel p s = Some (r, s') -> wf s' /\ ext s s'.
Proof.
  induction fuel as [|n IH]; intros p s r s' W H; [done |].
  simpl in H. by eapply (exec_ok E n (call E n) IH).
Qed.

Lemma run_ok E fuel {A : Type} (p : prog A) s r s' :
  wf s -> run E fuel p s = Some (r, s') -> wf s' /\ ext s s'.
Proof. apply exec_ok, call_ok. Qed.

Lemma store_dispatch_spec E fuel action s r s' :
  wf s -> store_dispatch E fuel action s = Some (r, s') ->
  wf s' /\ ext s s' /\
  (isDispatching s = false ->
   exists evs k,
     trace s' = trace s ++ evs /\
     listeners_of (ndispatch s) evs = take k (working s) /\
     (forall v, r = Returned v -> length (working s) <= k /\ v = action)).
Proof. apply dispatch_spec, call_ok. Qed.

Lemma wf_initial_store f v : wf (initial_store f v).
Proof.
  split; simpl; try lia; try done.
  constructor.
Qed.

(** ** The two ways a dispatch goes on after the reducer *)

Lemma store_dispatch_unfold E fuel action s :
  valid_action action -> isDispatching s = false ->
  store_dispatch E fuel action s =
  match reducer_call E fuel action s with
  | None => None
  | Some (Threw e, s1) => Some (Threw e, with_isDispatching false s1)
  | Some (Returned v, s1) =>
      let s3 := committing (ndispatch s) v s1 in
      match notify E (call E fuel) fuel (nextListeners s3) (ndispatch s) 0 s3 with
      | None => None
      | Some (Threw e, s4) => Some (Threw e, s4)
      | Some (Returned _, s4) => Some (Returned action, s4)
      end
  end.
Proof. intros [Hp Ht] Hd. by apply dispatch_unfold. Qed.

Lemma dispatch_gated E gas invoke action s :
  isDispatching s = true ->
  dispatch E gas invoke action s = Some (Threw (gate_error action), s).
Proof.
  intros Hd. unfold dispatch, gate_error. rewrite Hd.
  destruct (negb (isPlainObject action)); [done |].
  by destruct (String.eqb _ _).
Qed.

Lemma gate_error_valid action :
  valid_action action -> gate_error action = JsError Msg.reducers_may_not_dispatch.
Proof.
  intros [Hp Ht]. unfold gate_error. rewrite Hp. simpl.
  apply String.eqb_neq in Ht. by rewrite Ht.
Qed.

(** The reducer threw: the exception leaves [dispatch], the gate is
    cleared, the state is the one before, and only output of the reducer
    was recorded. *)
Lemma reducer_threw E fuel action s e s1 :
  wf s -> isDispatching s = false -> valid_action action ->
  reducer_call E fuel action s = Some (Threw e, s1) ->
  let s' := with_isDispatching false s1 in
  store_dispatch E fuel action s = Some (Threw e, s') /\
  wf s' /\ ext s s' /\ currentState s' = currentState s /\
  exists evs, trace s' = trace s ++ EvReducer (ndispatch s) action :: evs /\
              Forall is_emit evs.
Proof.
  intros W Hd Hv Hr. split.
  - rewrite store_dispatch_unfold, Hr by done. done.
  - destruct (call_ok _ _ _ _ _ _ (wf_gated action s W) Hr) as [W1 X1].
    by apply reducer_threw_ok.
Qed.

(** The reducer returned [v]: [v] is assigned, then the loop runs on the
    working list found at the beginning. *)
Lemma reducer_returned E fuel action s v s1 r s' :
  wf s -> isDispatching s = false -> valid_action action ->
  reducer_call E fuel action s = Some (Returned v, s1) ->
  store_dispatch E fuel action s = Some (r, s') ->
  let d := ndispatch s in
  wf s' /\ isDispatching s' = false /\
  exists evs1 evs2,
    trace s' = trace s ++ EvReducer d action :: evs1 ++ EvCommit d v :: evs2 /\
    Forall is_emit evs1 /\
    currentState s' = last_commit evs2 v /\
    match r with
    | Returned a => a = action /\ listeners_of d evs2 = working s
    | Threw e => exists k l sk,
        working s !! k = Some l /\
        call E fuel (body E l []) sk = Some (Threw e, s') /\
        listeners_of d evs2 = take (S k) (working s)
    end.
Proof.
  intros W Hd Hv Hr H d.
  rewrite store_dispatch_unfold, Hr in H by done. cbn zeta in H.
  destruct (call_ok _ _ _ _ _ _ (wf_gated action s W) Hr) as [W1 X1].
  destruct (committing_ok action v s s1 W Hd W1 X1)
    as (W3 & X3 & Hd3 & N3 & C3 & Hf3 & Ha3 & evs1 & T3 & M3).
  fold d in H, W3, X3, Hd3, N3, C3, Hf3, Ha3, T3.
  set (s3 := committing d v s1) in *.
  destruct (notify E (call E fuel) fuel (nextListeners s3) d 0 s3)
    as [[r4 s4]|] eqn:Hn; [| done].
  assert (Hlt : d < ndispatch s3) by lia.
  destruct (notify_spec E (call E fuel) (call_ok E fuel) _ _ _ _ _ _ _
              W3 Hd3 Hlt Hf3 Hn) as (W4 & X4 & evs2 & T4 & Hcalls).
  rewrite drop_0, Ha3 in Hcalls.
  assert (s' = s4) as -> by (destruct r4; by injection H as _ <-).
  split; [done |]. split; [by rewrite (ext_gate _ _ _ X4) |].
  exists evs1, evs2. split_and!.
  - rewrite T4, T3, <- app_assoc. simpl. by rewrite <- app_assoc.
  - done.
  - destruct (ext_trace _ _ _ X4) as (evs' & T' & _ & C' & _).
    rewrite T4 in T'. apply app_inv_head in T'. subst evs'. by rewrite C', C3.
  - destruct r4 as [[]|e]; injection H as <-; [done |].
    destruct Hcalls as (k & l & sk & Hk & Hthrow & Hl). by exists k, l, sk.
Qed.

(** ** Fuel *)

(** An answer does not depend on the fuel once there is enough of it. *)
Section Mono.
Variable E : env.
Variables gas gas' : nat.
Variables invoke invoke' : prog value -> store -> answer value.
Hypothesis gas_le : gas <= gas'.
Hypothesis invoke_le : forall p s x, invoke p s = Some x -> invoke' p s = Some x.

Lemma notify_mono listeners d : forall g g' i s x,
  g <= g' ->
  notify E invoke g listeners d i s = Some x ->
  notify E invoke' g' listeners d i s = Some x.
Proof.
  induction g as [|g IH]; intros g' i s x Hle H; [done |].
  destruct g' as [|g']; [lia |]. simpl in *.
  destruct (array_at s listeners !! i) as [l|]; [| done].
  destruct (invoke (body E l []) _) as [[[v|e] s1]|] eqn:Hi; [| | done].
  - rewrite (invoke_le _ _ _ Hi). apply IH; [lia | done].
  - by rewrite (invoke_le _ _ _ Hi).
Qed.

Lemma dispatch_mono action s x :
  dispatch E gas invoke action s = Some x ->
  dispatch E gas' invoke' action s = Some x.
Proof.
  unfold dispatch.
  destruct (negb (isPlainObject action)); [done |].
  destruct (String.eqb _ _); [done |].
  destruct (isDispatching s); [done |].
  destruct (invoke _ _) as [[[v|e] s1]|] eqn:Hi; [| | done];
    rewrite (invoke_le _ _ _ Hi); [| done].
  destruct (notify E invoke gas _ _ 0 _) as [[r4 s4]|] eqn:Hn; [| done].
  by rewrite (notify_mono _ _ _ _ _ _ _ gas_le Hn).
Qed.

Lemma replaceReducer_mono nextReducer s x :
  replaceReducer E gas invoke nextReducer s = Some x ->
  replaceReducer E gas' invoke' nextReducer s = Some x.
Proof.
  destruct nextReducer; try done. simpl.
  destruct (dispatch E gas invoke _ _) as [[r2 s2]|] eqn:Hd; [| done].
  by rewrite (dispatch_mono _ _ _ Hd).
Qed.

Lemma api_dispatch_mono action s x :
  api_dispatch E invoke action s = Some x ->
  api_dispatch E invoke' action s = Some x.
Proof. unfold api_dispatch. destruct (dispatch_cell E); [apply invoke_le | done]. Qed.

Lemma exec_mono {A : Type} (p : prog A) : forall s x,
  exec E gas invoke p s = Some x -> exec E gas' invoke' p s = Some x.
Proof.
  induction p as [a|e|k IH|l k IH|h k IH|a k IH|n k IH|a k IH|v k IH|k IH|v k IH];
    intros s x H; simpl in *; try done.
  - destruct (getState s). by apply IH.
  - destruct (subscribe l s). by apply IH.
  - destruct (unsubscribe h s). by apply IH.
  - destruct (dispatch E gas invoke a s) as [[r s']|] eqn:Hd; [| done].
    rewrite (dispatch_mono _ _ _ Hd). by apply IH.
  - destruct (replaceReducer E gas invoke n s) as [[r s']|] eqn:Hd; [| done].
    rewrite (replaceReducer_mono _ _ _ Hd). by apply IH.
  - destruct (api_dispatch E invoke a s) as [[r s']|] eqn:Hd; [| done].
    rewrite (api_dispatch_mono _ _ _ Hd). by apply IH.
  - by apply IH.
  - by apply IH.
  - by apply IH.
Qed.
End Mono.

Lemma call_mono E : forall n m p s x,
  n <= m -> call E n p s = Some x -> call E m p s = Some x.
Proof.
  induction n as [|n IH]; intros m p s x Hle H; [done |].
  destruct m as [|m]; [lia |]. simpl in *.
  eapply exec_mono; [| | exact H]; [lia |].
  intros p' s0 x0. apply IH. lia.
Qed.

Lemma run_mono E n m {A : Type} (p : prog A) s x :
  n <= m -> run E n p s = Some x -> run E m p s = Some x.
Proof.
  intros Hle. apply exec_mono; [done |]. intros p' s0 x0. by apply call_mono.
Qed.

Lemma store_dispatch_mono E n m action s x :
  n <= m -> store_dispatch E n action s = Some x -> store_dispatch E m action s = Some x.
Proof.
  intros Hle. apply dispatch_mono; [done |]. intros p' s0 x0. by apply call_mono.
Qed.

(** ** Composition *)

Lemma reduce_right_to_left {T : Type} (undefined : T)
    (rest : list (list T -> T)) : forall f args,
  fold_left (fun (a b : list T -> T) => fun args => a [b args]) rest f args
  = match rest with
    | [] => f args
    | _ => f [right_to_left undefined rest args]
    end.
Proof.
  induction rest as [|g rest IH]; intros f args; [done |].
  simpl fold_left. rewrite IH. by destruct rest.
Qed.

(** ** Middleware *)

Lemma exec_bind E gas invoke {A B : Type} (p : prog A) (f : A -> prog B) : forall s,
  exec E gas invoke (bind p f) s
  = match exec E gas invoke p s with
    | None => None
    | Some (Threw e, s') => Some (Threw e, s')
    | Some (Returned a, s') => exec E gas invoke (f a) s'
    end.
Proof.
  induction p as [a|e|k IH|l k IH|h k IH|a k IH|n k IH|a k IH|v k IH|k IH|v k IH];
    intros s; simpl; try done.
  - destruct (getState s). apply IH.
  - destruct (subscribe l s). apply IH.
  - destruct (unsubscribe h s). apply IH.
  - destruct (dispatch E gas invoke a s) as [[r s']|]; [apply IH | done].
  - destruct (replaceReducer E gas invoke n s) as [[r s']|]; [apply IH | done].
  - destruct (api_dispatch E invoke a s) as [[r s']|]; [apply IH | done].
Qed.

Lemma run_bind E fuel {A B : Type} (p : prog A) (f : A -> prog B) s :
  run E fuel (bind p f) s
  = match run E fuel p s with
    | None => None
    | Some (Threw e, s') => Some (Threw e, s')
    | Some (Returned a, s') => run E fuel (f a) s'
    end.
Proof. apply exec_bind. Qed.

(** The dispatch of a store enhanced with two middlewares is the first
    wrapper applied to the second wrapper applied to the dispatch of the
    base store. *)
Lemma compose_two_wrappers (w1 w2 : DispatchFn -> DispatchFn) (base : DispatchFn) :
  compose undefined_fn (map (unary undefined_fn) [w1; w2]) [base] = w1 (w2 base).
Proof. reflexivity. Qed.

(** ** Construction *)

Lemma build_chain_ok E fuel middlewares : forall s r s',
  wf s -> build_chain E fuel middlewares s = Some (r, s') -> wf s' /\ ext s s'.
Proof.
  induction middlewares as [|m rest IH]; intros s r s' W H; simpl in H.
  - injection H as <- <-. split; [done | apply ext_from_refl].
  - destruct (run E fuel (m middlewareAPI) s) as [[[w|e] s1]|] eqn:Hm; [| | done].
    + destruct (run_ok _ _ _ _ _ _ W Hm) as [W1 X1].
      destruct (build_chain E fuel rest s1) as [[r2 s2]|] eqn:Hr; [| done].
      destruct (IH _ _ _ W1 Hr) as [W2 X2].
      assert (s' = s2) as -> by (destruct r2; by injection H as _ <-).
      split; [done | by eapply ext_trans].
    + injection H as <- <-. by eapply run_ok.
Qed.

(** The store made by [createStore(reducer, preloadedState)] is well
    formed and idle, and its [dispatch] is the one of the store. *)
Lemma createStore_wf E fuel reducer preloadedState st s :
  typeof preloadedState <> "function"%string ->
  createStore E fuel reducer preloadedState (EnhancerValue VUndefined)
  = Some (Returned (st, s)) ->
  wf s /\ isDispatching s = false /\ dispatch_of st = raw_dispatch.
Proof.
  intros Ht H. apply String.eqb_neq in Ht.
  assert (H' : match reducer with
               | VFun f =>
                   match store_dispatch E fuel (VObj [("type", VStr (INIT E))])
                           (initial_store f preloadedState) with
                   | None => None
                   | Some (Threw e, _) => Some (Threw e)
                   | Some (Returned _, s') => Some (Returned (mkStoreObject raw_dispatch, s'))
                   end
               | _ => Some (Threw (JsError Msg.reducer_not_function))
               end = Some (Returned (st, s))).
  { destruct fuel; simpl in H; rewrite Ht in H; exact H. }
  clear H. destruct reducer; try done.
  destruct (store_dispatch E fuel _ _) as [[[v|e] s1]|] eqn:Hd; try done.
  injection H' as <- <-.
  destruct (store_dispatch_spec _ _ _ _ _ _ (wf_initial_store f preloadedState) Hd)
    as (W & X & _).
  split; [done |]. split; [| done]. by rewrite (ext_gate _ _ _ X).
Qed.

(** [applyMiddleware] builds the chain in the store the creator
    returned. *)
Lemma applyMiddleware_wf E fuel middlewares (creator : StoreCreator)
    reducer preloadedState st s :
  applyMiddleware E fuel middlewares creator reducer preloadedState
  = Some (Returned (st, s)) ->
  exists base s0,
    creator reducer preloadedState = Some (Returned (base, s0)) /\
    (wf s0 -> wf s /\ ext s0 s).
Proof.
  unfold applyMiddleware. intros H.
  destruct (creator reducer preloadedState) as [[[base s0]|e]|]; try done.
  exists base, s0. split; [done |]. intros W0.
  destruct (build_chain _ fuel middlewares s0) as [[[chain|e] s1]|] eqn:Hb; try done.
  injection H as _ <-. by eapply build_chain_ok.
Qed.

(** ** The notification phase from the outcomes of the listeners *)

(** One call of a listener by the loop of dispatch [d]. *)
Lemma listener_call_spec E fuel d l s r s' :
  wf s -> isDispatching s = false -> d < ndispatch s ->
  call E fuel (body E l []) (log (EvListener d l) s) = Some (r, s') ->
  wf s' /\ ext_from d s s' /\ isDispatching s' = false /\ d < ndispatch s' /\
  (forall ref, frozen s ref -> frozen s' ref /\ array_at s' ref = array_at s ref) /\
  exists evs, trace s' = trace s ++ EvListener d l :: evs /\ listeners_of d evs = [].
Proof.
  intros W Hd Hlt H.
  set (sl := log (EvListener d l) s) in *.
  assert (Wl : wf sl).
  { eapply (wf_fields s sl [EvListener d l]); try done; auto.
    - constructor; [| constructor]. intros d' [= <-]. done.
    - intros l0 h [[=]|[]]. }
  assert (Xl : ext_from d s sl).
  { eapply (ext_from_fields d s sl [EvListener d l]); try done; auto.
    constructor; [| constructor]. intros d' [= <-]. done. }
  destruct (call_ok _ _ _ _ _ _ Wl H) as [W1 X1].
  assert (X1' : ext_from d sl s') by (eapply ext_from_mono; [| exact X1]; simpl; lia).
  destruct (ext_trace _ _ _ X1) as (evs1 & T1 & I1 & _).
  split_and!.
  - done.
  - by eapply ext_from_trans.
  - by rewrite (ext_gate _ _ _ X1).
  - pose proof (ext_ndispatch _ _ _ X1). simpl in *. lia.
  - intros ref Hf. destruct (ext_frozen _ _ _ Xl ref Hf) as [Hf1 Ha1].
    destruct (ext_frozen _ _ _ X1 ref Hf1) as [Hf2 Ha2].
    split; [done | congruence].
  - exists evs1. split.
    + rewrite T1. simpl. by rewrite <- app_assoc.
    + by apply (listeners_of_later d (ndispatch s) evs1).
Qed.

(** The calls recorded by a notification phase are those of the list,
    in order: all of them when it returns, those up to the listener
    that threw otherwise. *)
Lemma call_listeners_spec E fuel d ls : forall s r s',
  wf s -> isDispatching s = false -> d < ndispatch s ->
  call_listeners E fuel d ls s = Some (r, s') ->
  wf s' /\ ext_from d s s' /\ isDispatching s' = false /\ d < ndispatch s' /\
  exists evs, trace s' = trace s ++ evs /\
    match r with
    | Returned _ => listeners_of d evs = ls
    | Threw _ => exists k, k < length ls /\ listeners_of d evs = take (S k) ls
    end.
Proof.
  induction ls as [|l ls IH]; intros s r s' W Hd Hlt H; simpl in H.
  - injection H as <- <-. split_and!; try done; [apply ext_from_refl |].
    exists []. by rewrite app_nil_r.
  - destruct (call E fuel (body E l []) _) as [[[v|e] s1]|] eqn:Hc; [| | done].
    + destruct (listener_call_spec _ _ _ _ _ _ _ W Hd Hlt Hc)
        as (W1 & X1 & Hd1 & Hlt1 & _ & evs1 & T1 & L1).
      destruct (IH _ _ _ W1 Hd1 Hlt1 H) as (W' & X' & Hd' & Hlt' & evs2 & T2 & L2).
      split_and!; try done; [by eapply ext_from_trans |].
      exists (EvListener d l :: evs1 ++ evs2). split.
      { by rewrite T2, T1, <- app_assoc. }
      simpl. rewrite Nat.eqb_refl, listeners_of_app, L1. simpl.
      destruct r as [u|e].
      * by rewrite L2.
      * destruct L2 as (k & Hk & L2). exists (S k).
        split; [simpl; lia |]. simpl. by rewrite L2.
    + injection H as <- <-.
      destruct (listener_call_spec _ _ _ _ _ _ _ W Hd Hlt Hc)
        as (W1 & X1 & Hd1 & Hlt1 & _ & evs1 & T1 & L1).
      split_and!; try done.
      exists (EvListener d l :: evs1). split; [done |].
      exists 0. split; [simpl; lia |].
      simpl. by rewrite Nat.eqb_refl, L1, take_0.
Qed.

Lemma call_listeners_app E fuel d (pre post : list fid) : forall s,
  call_listeners E fuel d (pre ++ post) s
  = match call_listeners E fuel d pre s with
    | None => None
    | Some (Threw e, s') => Some (Threw e, s')
    | Some (Returned _, s') => call_listeners E fuel d post s'
    end.
Proof.
  induction pre as [|l pre IH]; intros s; [done |].
  simpl. by destruct (call E fuel (body E l []) _) as [[[v|e] s1]|].
Qed.

(** The loop of [dispatch], which reads the array through its reference
    at every turn, does what the specification says of the list the
    array held when the loop began, and comes to its end, as soon as it
    is given more turns than the list has listeners. *)
Lemma notify_call_listeners E fuel ref d : forall turns i s,
  wf s -> isDispatching s = false -> d < ndispatch s ->
  frozen s ref ->
  length (drop i (array_at s ref)) < turns ->
  notify E (call E fuel) turns ref d i s
  = call_listeners E fuel d (drop i (array_at s ref)) s.
Proof.
  induction turns as [|turns IH]; intros i s W Hd Hlt Hf Hlen; [lia |].
  simpl. destruct (array_at s ref !! i) as [l|] eqn:Hi.
  - rewrite (drop_S _ _ _ Hi) in *. simpl in *.
    destruct (call E fuel (body E l []) _) as [[[v|e] s1]|] eqn:Hc; [| done | done].
    destruct (listener_call_spec _ _ _ _ _ _ _ W Hd Hlt Hc)
      as (W1 & _ & Hd1 & Hlt1 & Hfr & _).
    destruct (Hfr ref Hf) as [Hf1 Ha1].
    rewrite <- Ha1. apply IH; try done. rewrite Ha1. lia.
  - apply lookup_ge_None in Hi. by rewrite drop_ge.
Qed.

(** [dispatch] from the outcomes of the calls it makes: when the
    reducer returns [v], the dispatch ends as the notification of the
    working list it found ends. *)
Lemma store_dispatch_total E fuel action s v s1 :
  wf s -> isDispatching s = false -> valid_action action ->
  length (working s) < fuel ->
  reducer_call E fuel action s = Some (Returned v, s1) ->
  store_dispatch E fuel action s
  = match call_listeners E fuel (ndispatch s) (working s)
            (committing (ndispatch s) v s1) with
    | None => None
    | Some (r, s') => Some (dispatch_outcome action r, s')
    end.
Proof.
  intros W Hd Hv Hfuel Hr.
  rewrite store_dispatch_unfold, Hr by done. cbv zeta.
  destruct (call_ok _ _ _ _ _ _ (wf_gated action s W) Hr) as [W1 X1].
  destruct (committing_ok action v s s1 W Hd W1 X1)
    as (W3 & _ & Hd3 & N3 & _ & Hf3 & Ha3 & _).
  cbv zeta in *. set (s3 := committing (ndispatch s) v s1) in *.
  rewrite (notify_call_listeners E fuel _ _ fuel 0 s3 W3 Hd3);
    [| lia | done | by rewrite drop_0, Ha3].
  rewrite drop_0, Ha3.
  by destruct (call_listeners E fuel _ _ s3) as [[[u|e] s4]|].
Qed.

(** The store in which the notification phase of a dispatch starts. *)
Lemma committing_spec E fuel action s v s1 :
  wf s -> isDispatching s = false ->
  reducer_call E fuel action s = Some (Returned v, s1) ->
  let d := ndispatch s in
  let s3 := committing d v s1 in
  wf s3 /\ isDispatching s3 = false /\ d < ndispatch s3 /\ currentState s3 = v /\
  ext_from d s s3 /\
  exists evs, trace s3 = trace s ++ EvReducer d action :: evs ++ [EvCommit d v] /\
              Forall is_emit evs.
Proof.
  intros W Hd Hr d s3.
  destruct (call_ok _ _ _ _ _ _ (wf_gated action s W) Hr) as [W1 X1].
  destruct (committing_ok action v s s1 W Hd W1 X1)
    as (W3 & X3 & Hd3 & N3 & C3 & _ & _ & evs & T3 & M3).
  split_and!; try done; [fold d in N3; fold s3 in N3; lia |].
  by exists evs.
Qed.

(** Events that record no assignment leave the state as it is. *)
Lemma last_commit_unchanged evs v :
  (forall d v', ~ In (EvCommit d v') evs) -> last_commit evs v = v.
Proof.
  unfold last_commit. revert v.
  induction evs as [|e evs IH]; intros v H; [done |].
  simpl. destruct e; try (apply IH; intros d' v' Hin; apply (H d' v'); by right).
  destruct (H d state). by left.
Qed.

Lemma In_take {A : Type} (x : A) k (l : list A) : In x (take k l) -> In x l.
Proof.
  intros H. rewrite <- (take_drop k l). apply in_or_app. by left.
Qed.

Lemma ext_new_events s s' d l evs :
  ext s s' -> trace s' = trace s ++ evs -> In (EvListener d l) evs -> ndispatch s <= d.
Proof.
  intros X T Hin. destruct (ext_trace _ _ _ X) as (evs' & T' & I & _).
  rewrite T in T'. apply app_inv_head in T'. subst evs'.
  unfold ids_from in I. rewrite Forall_forall in I.
  apply list_elem_of_In in Hin. by apply (I _ Hin).
Qed.

Lemma wf_subscribed_active s l h :
  wf s -> In (EvSubscribe l h) (trace s) -> ~ In (EvUnsubscribe h l) (trace s) ->
  subs s !! h = Some (l, true) /\ In l (working s).
Proof.
  intros W Hs Hu. destruct (wf_subscribed _ W _ _ Hs) as ([|] & Hb & Hf).
  - split; [done |]. apply count_pos_In. rewrite (wf_count _ W).
    by eapply active_count_pos.
  - destruct Hu. by apply Hf.
Qed.

Lemma wf_subscribed_list ls s :
  wf s -> isDispatching s = false ->
  wf (Demo.subscribed ls s) /\ isDispatching (Demo.subscribed ls s) = false.
Proof.
  revert s. induction ls as [|l ls IH]; intros s W Hd; [done |].
  change (Demo.subscribed (l :: ls) s)
    with (Demo.subscribed ls (snd (subscribe (VFun l) s))).
  destruct (subscribe_spec l s W Hd) as (s1 & He & Hrest).
  pose proof (subscribe_ok _ _ _ _ W He) as [W1 _].
  rewrite He. simpl. apply IH; [done |]. apply Hrest.
Qed.

(** ** The claims *)

(** Claim C1. Snapshot isolation. Let the reducer return [v] in the
    dispatch of a valid action on an idle store, and let the
    notification of the list the dispatch began with have the outcome
    [r], every listener returning or one of them throwing; let
    [subscribe(B)] have been called meanwhile, [B] being a listener that
    was not registered when the dispatch began (the call can only come
    from the notification phase, since [subscribe] throws while the
    reducer runs). Then the dispatch ends with that outcome, and its
    loop never calls [B]: a call of [B] in the meantime belongs to a
    dispatch that started later, nested in a listener. In the store the
    dispatch leaves, or any store reached from it, as long as the
    closure returned by that [subscribe] has not been called, [B] is in
    the working list; and a dispatch on such a store, the next one in
    particular, when its reducer returns and the notification of its
    list has an outcome, ends with that outcome: when the listeners
    return it returns the action and its loop has called [B]; when the
    listener at some position throws, its loop has called the listeners
    up to that position. The bound [fuel] on the turns of a loop is more
    than the length of its list. *)
Theorem C1_subscribe_during_notification
    E fuel action s v s1 r s' evs B h :
  wf s -> isDispatching s = false -> valid_action action ->
  length (working s) < fuel ->
  reducer_call E fuel action s = Some (Returned v, s1) ->
  call_listeners E fuel (ndispatch s) (working s) (committing (ndispatch s) v s1)
  = Some (r, s') ->
  trace s' = trace s ++ evs ->
  ~ In B (working s) ->
  In (EvSubscribe B h) evs ->
  store_dispatch E fuel action s = Some (dispatch_outcome action r, s') /\
  (forall d, In (EvListener d B) evs -> ndispatch s < d) /\
  (forall s2,
     wf s2 -> ext s' s2 ->
     ~ In (EvUnsubscribe h B) (trace s2) ->
     In B (working s2) /\
     forall fuel' action' v' s1' r' s'',
       valid_action action' ->
       length (working s2) < fuel' ->
       reducer_call E fuel' action' s2 = Some (Returned v', s1') ->
       call_listeners E fuel' (ndispatch s2) (working s2)
         (committing (ndispatch s2) v' s1') = Some (r', s'') ->
       store_dispatch E fuel' action' s2 = Some (dispatch_outcome action' r', s'') /\
       exists evs',
         trace s'' = trace s2 ++ evs' /\
         (forall u, r' = Returned u -> In (EvListener (ndispatch s2) B) evs') /\
         (forall e, r' = Threw e ->
            exists k, k < length (working s2) /\
                      listeners_of (ndispatch s2) evs' = take (S k) (working s2))).
Proof.
  intros W Hd Hv Hfuel Hr Hall T Hnew Hsub.
  assert (H : store_dispatch E fuel action s = Some (dispatch_outcome action r, s'))
    by (by rewrite (store_dispatch_total _ _ _ _ _ _ W Hd Hv Hfuel Hr), Hall).
  destruct (store_dispatch_spec _ _ _ _ _ _ W H) as (W' & X & Hcalls).
  destruct (Hcalls Hd) as (evs0 & k & T0 & Hl & _).
  rewrite T in T0. apply app_inv_head in T0. subst evs0.
  split; [exact H |]. split.
  - intros d Hin.
    pose proof (ext_new_events _ _ _ _ _ X T Hin) as Hle.
    destruct (decide (d = ndispatch s)) as [->|Hne]; [| lia].
    apply listeners_of_In in Hin. rewrite Hl in Hin.
    apply In_take in Hin. done.
  - intros s2 W2 X2 Hun.
    destruct (ext_trace _ _ _ X2) as (evs2 & T2 & _).
    assert (Hin : In (EvSubscribe B h) (trace s2)).
    { rewrite T2, T. apply in_or_app. left. apply in_or_app. by right. }
    destruct (wf_subscribed_active _ _ _ W2 Hin Hun) as [_ HB].
    split; [exact HB |].
    intros fuel' action' v' s1' r' s'' Hv' Hfuel' Hr' Hall'.
    assert (Hd2 : isDispatching s2 = false)
      by (by rewrite (ext_gate _ _ _ X2), (ext_gate _ _ _ X)).
    split; [by rewrite (store_dispatch_total _ _ _ _ _ _ W2 Hd2 Hv' Hfuel' Hr'), Hall' |].
    destruct (committing_spec _ _ _ _ _ _ W2 Hd2 Hr')
      as (W3 & Hd3 & N3 & _ & _ & evs1 & T3 & M1).
    destruct (call_listeners_spec _ _ _ _ _ _ _ W3 Hd3 N3 Hall')
      as (_ & _ & _ & _ & evsL & TL & LL).
    set (d2 := ndispatch s2) in *.
    assert (L : listeners_of d2 ((EvReducer d2 action' :: evs1 ++ [EvCommit d2 v']) ++ evsL)
                = listeners_of d2 evsL).
    { rewrite listeners_of_app. simpl.
      by rewrite listeners_of_app, (listeners_of_emit d2 evs1). }
    exists ((EvReducer d2 action' :: evs1 ++ [EvCommit d2 v']) ++ evsL).
    split_and!.
    + rewrite TL, T3, <- !app_assoc. simpl. by rewrite <- !app_assoc.
    + intros u ->. apply listeners_of_In. by rewrite L, LL.
    + intros e ->. by rewrite L.
Qed.

Lemma C1_witness :
  let s := Demo.storeA in
  let v := Demo.obj "x" (VNum 1) in
  let s1 := Demo.final s (reducer_call Demo.E 2 (Demo.action "FIRST") s) in
  let s' := Demo.final s1
              (call_listeners Demo.E 2 0 (working s) (committing 0 v s1)) in
  let s1' := Demo.final s' (reducer_call Demo.E 3 (Demo.action "SECOND") s') in
  let s'' := Demo.final s1'
               (call_listeners Demo.E 3 1 (working s') (committing 1 v s1')) in
  store_dispatch Demo.E 2 (Demo.action "FIRST") s
  = Some (Returned (Demo.action "FIRST"), s') /\
  (forall d, In (EvListener d Demo.listenerB) (drop (length (trace s)) (trace s')) ->
             ndispatch s < d) /\
  store_dispatch Demo.E 3 (Demo.action "SECOND") s'
  = Some (Returned (Demo.action "SECOND"), s'') /\
  In (EvListener (ndispatch s') Demo.listenerB) (trace s'').
Proof.
  intros s v s1 s' s1' s''.
  assert (W : wf s) by (apply wf_subscribed_list; [apply wf_initial_store | reflexivity]).
  destruct (C1_subscribe_during_notification Demo.E 2 (Demo.action "FIRST")
              s v s1 (Returned tt) s'
              (drop (length (trace s)) (trace s')) Demo.listenerB 1 W)
    as (H & H1 & H2).
  - reflexivity.
  - split; [reflexivity | vm_compute; discriminate].
  - vm_compute. lia.
  - vm_compute. reflexivity.
  - vm_compute. reflexivity.
  - vm_compute. reflexivity.
  - absent.
  - vm_compute. tauto.
  - split; [exact H |]. split; [exact H1 |].
    destruct (H2 s') as [_ Hnext].
    + apply (store_dispatch_spec _ _ _ _ _ _ W H).
    + apply ext_from_refl.
    + absent.
    + destruct (Hnext 3 (Demo.action "SECOND") v s1' (Returned tt) s'')
        as (H' & evs' & T' & Hin & _).
      * split; [reflexivity | vm_compute; discriminate].
      * vm_compute. lia.
      * vm_compute. reflexivity.
      * vm_compute. reflexivity.
      * split; [exact H' |].
        rewrite T'. apply in_or_app. right. apply (Hin tt). reflexivity.
Defined.

(** Claim C2. Snapshot isolation on removal. Let the reducer return [v]
    in the dispatch of a valid action on an idle store whose working
    list is [pre ++ C :: post], so that [C] was registered before the
    dispatch began. Let the listeners of [pre], called in order from the
    store in which the notification starts, all return, one of them
    having called an [unsubscribe] closure of [C], which took [C] out of
    the working list; and let the notification of the list the dispatch
    began with have the outcome [r], every listener returning or one of
    [C :: post] throwing. Then the dispatch ends with that outcome: it
    is not stopped or cut short by the removal. [C] is called by its
    loop after the removal; the calls of the loop follow the list the
    dispatch began with, [C] included, and are the whole of it when the
    dispatch returns. The bound [fuel] on the turns of the loop is more
    than the length of the list. *)
Theorem C2_unsubscribe_during_notification
    E fuel action s v s1 pre C post sk evs h r s' :
  wf s -> isDispatching s = false -> valid_action action ->
  length (working s) < fuel ->
  reducer_call E fuel action s = Some (Returned v, s1) ->
  working s = pre ++ C :: post ->
  call_listeners E fuel (ndispatch s) pre (committing (ndispatch s) v s1)
  = Some (Returned tt, sk) ->
  trace sk = trace (committing (ndispatch s) v s1) ++ evs ->
  In (EvUnsubscribe h C) evs ->
  call_listeners E fuel (ndispatch s) (working s) (committing (ndispatch s) v s1)
  = Some (r, s') ->
  let d := ndispatch s in
  store_dispatch E fuel action s = Some (dispatch_outcome action r, s') /\
  exists before after,
    trace s' = trace s ++ before ++ EvUnsubscribe h C :: after /\
    length (listeners_of d before) <= length pre /\
    In (EvListener d C) after /\
    (exists n, length pre < n /\
               listeners_of d (before ++ after) = take n (working s)) /\
    (forall u, r = Returned u -> listeners_of d (before ++ after) = working s).
Proof.
  intros W Hd Hv Hfuel Hr Hw Hpre Tk Hun Hall d.
  destruct (committing_spec _ _ _ _ _ _ W Hd Hr)
    as (W3 & Hd3 & N3 & _ & _ & evs1 & T3 & M1).
  fold d in W3, Hd3, N3, T3, Hpre, Tk, Hall. set (s3 := committing d v s1) in *.
  destruct (call_listeners_spec _ _ _ _ _ _ _ W3 Hd3 N3 Hpre)
    as (Wk & _ & Hdk & Nk & evsA & TA & LA).
  rewrite Tk in TA. apply app_inv_head in TA. subst evsA.
  rewrite Hw, call_listeners_app, Hpre in Hall.
  destruct (call_listeners_spec _ _ _ _ _ _ _ Wk Hdk Nk Hall)
    as (_ & _ & _ & _ & evsB & TB & LB).
  apply in_split in Hun. destruct Hun as (a1 & a2 & ->).
  rewrite listeners_of_app in LA. simpl in LA.
  assert (L1 : listeners_of d (EvReducer d action :: evs1 ++ [EvCommit d v]) = []).
  { simpl. by rewrite listeners_of_app, (listeners_of_emit d evs1). }
  assert (Lb : listeners_of d ((EvReducer d action :: evs1 ++ [EvCommit d v]) ++ a1)
               = listeners_of d a1) by (by rewrite listeners_of_app, L1).
  assert (Lall : listeners_of d
                   (((EvReducer d action :: evs1 ++ [EvCommit d v]) ++ a1) ++ a2 ++ evsB)
                 = pre ++ listeners_of d evsB).
  { rewrite listeners_of_app, Lb, listeners_of_app, app_assoc. by rewrite LA. }
  assert (HC : In C (listeners_of d evsB)).
  { destruct r as [u|e]; [rewrite LB; by left |].
    destruct LB as (k & _ & ->). by left. }
  split.
  { rewrite (store_dispatch_total _ _ _ _ _ _ W Hd Hv Hfuel Hr).
    fold d. fold s3. by rewrite Hw, call_listeners_app, Hpre, Hall. }
  exists ((EvReducer d action :: evs1 ++ [EvCommit d v]) ++ a1), (a2 ++ evsB).
  split_and!.
  - rewrite TB, Tk, T3, <- !app_assoc. simpl. by rewrite <- !app_assoc.
  - rewrite Lb, <- LA, length_app. lia.
  - apply in_or_app. right. by apply listeners_of_In.
  - rewrite Lall, Hw. destruct r as [u|e].
    + exists (length (pre ++ C :: post)). rewrite LB, take_ge by done.
      split; [rewrite length_app; simpl; lia | done].
    + destruct LB as (k & Hk & ->). exists (length pre + S k).
      split; [lia |]. by rewrite take_app_add.
  - intros u ->. by rewrite Lall, LB, Hw.
Qed.

Lemma C2_witness :
  let s := Demo.storeRC in
  let v := Demo.obj "x" (VNum 1) in
  let s1 := Demo.final s (reducer_call Demo.E 3 (Demo.action "A") s) in
  let s3 := committing 0 v s1 in
  let sk := Demo.final s3 (call_listeners Demo.E 3 0 [Demo.remover] s3) in
  let s' := Demo.final s3 (call_listeners Demo.E 3 0 (working s) s3) in
  store_dispatch Demo.E 3 (Demo.action "A") s = Some (Returned (Demo.action "A"), s') /\
  working s = [Demo.remover; Demo.listenerC] /\
  working sk = [Demo.remover] /\
  In (EvListener 0 Demo.listenerC) (trace s') /\
  listeners_of 0 (trace s') = [Demo.remover; Demo.listenerC].
Proof.
  intros s v s1 s3 sk s'.
  assert (W : wf s) by (apply wf_subscribed_list; [apply wf_initial_store | reflexivity]).
  destruct (C2_unsubscribe_during_notification Demo.E 3 (Demo.action "A") s v s1
              [Demo.remover] Demo.listenerC [] sk
              [EvListener 0 Demo.remover; EvUnsubscribe 1 Demo.listenerC] 1
              (Returned tt) s' W)
    as (H & before & after & T & _ & HC & _).
  - reflexivity.
  - split; [reflexivity | vm_compute; discriminate].
  - vm_compute. lia.
  - vm_compute. reflexivity.
  - vm_compute. reflexivity.
  - vm_compute. reflexivity.
  - vm_compute. reflexivity.
  - right. left. reflexivity.
  - vm_compute. reflexivity.
  - split; [exact H |].
    split; [vm_compute; reflexivity |].
    split; [vm_compute; reflexivity |].
    split; [| vm_compute; reflexivity].
    rewrite T. apply in_or_app. right. apply in_or_app. right. right. exact HC.
Defined.

(** Claim C3. Reentrant dispatch is forbidden. While the gate is set,
    that is while a reducer runs, a call [store.dispatch(inner)] throws
    and leaves every variable of the store as it was; the error is
    "Reducers may not dispatch actions." when [inner] is a well-formed
    action (a malformed one is rejected by its validation, which comes
    first). So when the reducer of an idle store begins with such a call,
    [k] being what it does with the outcome (go on after catching the
    exception, or let it propagate), the reducer runs as [k] applied to
    that exception; and when the outer dispatch is over, whether it
    returned or threw, the gate is clear and the state is either the
    state before (the reducer threw) or the value returned by the
    reducer, followed by what later dispatches of listeners assigned. *)
Theorem C3_reentrant_dispatch E fuel action inner k s r s' :
  wf s -> isDispatching s = false -> valid_action action ->
  body E (currentReducer s) [currentState s; action] = CallDispatch inner k ->
  store_dispatch E fuel action s = Some (r, s') ->
  let failure := Threw (gate_error inner) in
  (forall sg, isDispatching sg = true ->
     store_dispatch E fuel inner sg = Some (failure, sg)) /\
  (valid_action inner -> gate_error inner = JsError Msg.reducers_may_not_dispatch) /\
  reducer_call E fuel action s = call E fuel (k failure) (gated action s) /\
  isDispatching s' = false /\
  match reducer_call E fuel action s with
  | None => False
  | Some (Threw e, _) => r = Threw e /\ currentState s' = currentState s
  | Some (Returned v, _) =>
      exists evs1 evs2,
        trace s' = trace s ++ EvReducer (ndispatch s) action :: evs1
                           ++ EvCommit (ndispatch s) v :: evs2 /\
        Forall is_emit evs1 /\
        currentState s' = last_commit evs2 v
  end.
Proof.
  intros W Hd Hv Hbody H failure.
  split; [intros sg Hg; by apply dispatch_gated |].
  split; [apply gate_error_valid |].
  assert (Hcall : reducer_call E fuel action s
                  = call E fuel (k failure) (gated action s)).
  { unfold reducer_call. rewrite Hbody. destruct fuel as [|n]; [done |].
    simpl. by rewrite dispatch_gated. }
  split; [done |].
  destruct (reducer_call E fuel action s) as [[[v|e] s1]|] eqn:Hr.
  - destruct (reducer_returned _ _ _ _ _ _ _ _ W Hd Hv Hr H)
      as (_ & Hd' & evs1 & evs2 & T & M & C & _).
    split; [done |]. by exists evs1, evs2.
  - destruct (reducer_threw _ _ _ _ _ _ W Hd Hv Hr) as (H' & _ & _ & C & _).
    rewrite H' in H. injection H as <- <-. done.
  - rewrite store_dispatch_unfold, Hr in H by done. done.
Qed.

Lemma C3_witness :
  let s := initial_store Demo.dispatching_reducer (VNum 7) in
  let failure := Threw (JsError Msg.reducers_may_not_dispatch) in
  store_dispatch Demo.E 2 (Demo.action "INNER") (gated (Demo.action "OUTER") s)
  = Some (failure, gated (Demo.action "OUTER") s) /\
  isDispatching (Demo.final s (store_dispatch Demo.E 2 (Demo.action "OUTER") s)) = false /\
  currentState (Demo.final s (store_dispatch Demo.E 2 (Demo.action "OUTER") s)) = VNum 7.
Proof.
  intros s failure.
  pose (s' := Demo.final s (store_dispatch Demo.E 2 (Demo.action "OUTER") s)).
  destruct (C3_reentrant_dispatch Demo.E 2 (Demo.action "OUTER") (Demo.action "INNER")
              (Demo.after_inner [VNum 7; Demo.action "OUTER"]) s
              (Returned (Demo.action "OUTER")) s')
    as (H1 & H2 & H3 & H4 & H5).
  - apply wf_initial_store.
  - reflexivity.
  - split; [reflexivity | vm_compute; discriminate].
  - reflexivity.
  - vm_compute. reflexivity.
  - split; [apply (H1 (gated (Demo.action "OUTER") s)); reflexivity |].
    split; [exact H4 |]. vm_compute. reflexivity.
Defined.

(** Claim C4. A reducer that throws. Let the call of the reducer made by
    the dispatch of a valid action on an idle store throw [e]. Then
    [dispatch] throws [e] to its caller; in the store it leaves, the gate
    is clear and the state is the state before the dispatch; nothing was
    recorded but the call of the reducer and its output, so that no
    listener was called; and the store is well formed and idle, so that
    it can be used as before: [getState] returns the state. *)
Theorem C4_reducer_throws E fuel action s e s1 :
  wf s -> isDispatching s = false -> valid_action action ->
  reducer_call E fuel action s = Some (Threw e, s1) ->
  exists s',
    store_dispatch E fuel action s = Some (Threw e, s') /\
    isDispatching s' = false /\
    currentState s' = currentState s /\
    (exists evs, trace s' = trace s ++ EvReducer (ndispatch s) action :: evs /\
                 Forall is_emit evs /\
                 forall d l, ~ In (EvListener d l) (EvReducer (ndispatch s) action :: evs)) /\
    wf s' /\
    getState s' = (Returned (currentState s), s').
Proof.
  intros W Hd Hv Hr.
  destruct (reducer_threw _ _ _ _ _ _ W Hd Hv Hr) as (H & W' & X & C & evs & T & M).
  exists (with_isDispatching false s1). split_and!; try done.
  - exists evs. split_and!; try done.
    intros d l [[=]|Hin]. rewrite Forall_forall in M.
    apply list_elem_of_In in Hin. by apply M in Hin.
  - unfold getState. simpl. by rewrite <- C.
Qed.

Lemma C4_witness :
  let s := initial_store Demo.throwing_reducer (VNum 7) in
  exists s',
    store_dispatch Demo.E 1 (Demo.action "A") s
    = Some (Threw (JsThrown (VStr "reducer failed")), s') /\
    isDispatching s' = false /\ currentState s' = VNum 7 /\
    getState s' = (Returned (VNum 7), s').
Proof.
  intros s.
  destruct (C4_reducer_throws Demo.E 1 (Demo.action "A") s
              (JsThrown (VStr "reducer failed")) (gated (Demo.action "A") s))
    as (s' & H1 & H2 & H3 & _ & _ & H6).
  - apply wf_initial_store.
  - reflexivity.
  - split; [reflexivity | vm_compute; discriminate].
  - vm_compute. reflexivity.
  - exists s'. split; [exact H1 |]. split; [exact H2 |]. split; [exact H3 | exact H6].
Defined.

(** Claim C5. Middleware order. Let a store be built by
    [applyMiddleware(M1, M2)] over a store creator that returned the base
    store, [M1] and [M2] logging [a] and [b] on entry and on exit around
    [next]. The construction succeeds, and one call of the enhanced
    [dispatch] runs as: entry of [M1], entry of [M2], the dispatch of the
    base store, and when this one returns, exit of [M2], exit of [M1],
    the value being handed back; an exception of the base dispatch
    leaves through both. So in a well-formed store the events recorded
    by a call that returns are the two entries, [M1] first, the events of
    the base dispatch, and the two exits, [M2] first. *)
Theorem C5_middleware_order
    E fuel (creator : StoreCreator) reducer preloadedState base s0 a b :
  creator reducer preloadedState = Some (Returned (base, s0)) ->
  exists enhanced,
    applyMiddleware E fuel [logger a; logger b] creator reducer preloadedState
    = Some (Returned (enhanced, s0)) /\
    (forall E' n action s,
       run E' n (dispatch_of enhanced action) s
       = match run E' n (dispatch_of base action)
                   (log (EvEmit (entering b)) (log (EvEmit (entering a)) s)) with
         | None => None
         | Some (Threw e, s1) => Some (Threw e, s1)
         | Some (Returned v, s1) =>
             Some (Returned v, log (EvEmit (exiting a)) (log (EvEmit (exiting b)) s1))
         end) /\
    (forall E' n action s v s2,
       wf s ->
       run E' n (dispatch_of enhanced action) s = Some (Returned v, s2) ->
       exists s1 evs,
         run E' n (dispatch_of base action)
             (log (EvEmit (entering b)) (log (EvEmit (entering a)) s))
         = Some (Returned v, s1) /\
         trace s1 = trace s ++ [EvEmit (entering a); EvEmit (entering b)] ++ evs /\
         trace s2 = trace s ++ [EvEmit (entering a); EvEmit (entering b)] ++ evs
                            ++ [EvEmit (exiting b); EvEmit (exiting a)]).
Proof.
  intros Hc.
  exists (mkStoreObject
            (compose undefined_fn
               (map (unary undefined_fn)
                  [fun next action =>
                     Emit (entering a)
                       (bind (next action) (fun r => Emit (exiting a) (Ret r)));
                   fun next action =>
                     Emit (entering b)
                       (bind (next action) (fun r => Emit (exiting b) (Ret r)))])
               [dispatch_of base])).
  assert (Hrun : forall E' n action s,
    run E' n
      (Emit (entering a)
         (bind (Emit (entering b)
                  (bind (dispatch_of base action) (fun r => Emit (exiting b) (Ret r))))
               (fun r => Emit (exiting a) (Ret r)))) s
    = match run E' n (dispatch_of base action)
                (log (EvEmit (entering b)) (log (EvEmit (entering a)) s)) with
      | None => None
      | Some (Threw e, s1) => Some (Threw e, s1)
      | Some (Returned v, s1) =>
          Some (Returned v, log (EvEmit (exiting a)) (log (EvEmit (exiting b)) s1))
      end).
  { intros E' n action s. unfold run. simpl. rewrite !exec_bind.
    by destruct (exec E' n (call E' n) (dispatch_of base action) _) as [[[v|e] s1]|]. }
  set (enhanced := mkStoreObject _).
  assert (Heq : forall E' n action s,
    run E' n (dispatch_of enhanced action) s
    = match run E' n (dispatch_of base action)
                (log (EvEmit (entering b)) (log (EvEmit (entering a)) s)) with
      | None => None
      | Some (Threw e, s1) => Some (Threw e, s1)
      | Some (Returned v, s1) =>
          Some (Returned v, log (EvEmit (exiting a)) (log (EvEmit (exiting b)) s1))
      end).
  { intros E' n action s. subst enhanced. cbn [dispatch_of].
    rewrite compose_two_wrappers. apply Hrun. }
  split_and!.
  - unfold applyMiddleware. rewrite Hc. reflexivity.
  - exact Heq.
  - intros E' n action s v s2 W H. rewrite Heq in H.
    destruct (log_emit_ok (entering a) s W) as [Wa _].
    destruct (log_emit_ok (entering b) _ Wa) as [Wb _].
    destruct (run E' n (dispatch_of base action) _) as [[[v1|e1] s1]|] eqn:Hb;
      [| done | done].
    injection H as <- <-.
    destruct (run_ok _ _ _ _ _ _ Wb Hb) as [_ X].
    destruct (ext_trace _ _ _ X) as (evs & T & _).
    exists s1, evs. split; [done |].
    cbn [trace log] in T. rewrite <- !app_assoc in T. cbn [app] in T.
    split; [exact T |]. cbn [trace log]. rewrite T, <- !app_assoc.
    reflexivity.
Qed.

Lemma C5_witness :
  exists enhanced s0 s2,
    createStore Demo.E 2 (VFun Demo.reducer1) VUndefined
      (EnhancerFn (applyMiddleware Demo.E 1 [logger (VNum 1); logger (VNum 2)]))
    = Some (Returned (enhanced, s0)) /\
    run (enhanced_env Demo.E enhanced) 1 (dispatch_of enhanced (Demo.action "A")) s0
    = Some (Returned (Demo.action "A"), s2) /\
    trace s2 = trace s0 ++
      [EvEmit (entering (VNum 1)); EvEmit (entering (VNum 2));
       EvReducer 1 (Demo.action "A"); EvCommit 1 (Demo.obj "x" (VNum 1));
       EvEmit (exiting (VNum 2)); EvEmit (exiting (VNum 1))].
Proof.
  destruct (C5_middleware_order Demo.E 1 (base_createStore Demo.E 1)
              (VFun Demo.reducer1) VUndefined
              (mkStoreObject raw_dispatch)
              (Demo.final Demo.store1
                 (store_dispatch Demo.E 1 (Demo.action (INIT Demo.E)) Demo.store1))
              (VNum 1) (VNum 2))
    as (enhanced & Hbuild & Hrun & _).
  - vm_compute. reflexivity.
  - eexists enhanced, _, _. split; [exact Hbuild |].
    split.
    + rewrite Hrun. vm_compute. reflexivity.
    + vm_compute. reflexivity.
Defined.

(** Claim C6. [compose()] returns its first argument unchanged: it is
    the identity function; [compose(f)] is [f] itself; and for two
    functions or more, [compose(f1, ..., fn)(...args)] is
    [f1(f2(...fn(...args)))]: the last function receives the arguments,
    every other one receives the previous result as its only argument.
    In particular [compose(a, b, c)(x)] is [a(b(c(x)))] for functions of
    one parameter. *)
Theorem C6_compose {T : Type} (undefined : T) :
  (forall x rest, compose undefined [] (x :: rest) = x) /\
  (forall f, compose undefined [f] = f) /\
  (forall f g rest args,
     compose undefined (f :: g :: rest) args
     = f [right_to_left undefined (g :: rest) args]) /\
  (forall a b c x,
     compose undefined [unary undefined a; unary undefined b; unary undefined c] [x]
     = a (b (c x))).
Proof.
  split_and!; try done.
  intros f g rest args. unfold compose.
  by rewrite (reduce_right_to_left undefined).
Qed.

(** Claim C7. Malformed actions. A dispatch of a value that does not
    pass validation throws before anything else happens: the error
    "Actions must be plain objects. ..." when the value is not a plain
    object, the error about an undefined "type" property when it is one
    whose [type] is [undefined]. The store is returned as it was, in
    whatever state the gate is: the reducer is not called, the state is
    not assigned, no listener is called. *)
Theorem C7_malformed_action E fuel action s :
  ~ valid_action action ->
  store_dispatch E fuel action s
  = Some (Threw (JsError (if isPlainObject action then Msg.undefined_type
                          else Msg.not_plain_object)), s).
Proof.
  unfold valid_action, store_dispatch, dispatch. intros Hv.
  destruct (isPlainObject action); [| done]. simpl.
  destruct (String.eqb_spec (typeof (get_prop action "type")) "undefined");
    [done |].
  destruct Hv. done.
Qed.

Lemma C7_witness :
  let s := initial_store Demo.reducer1 (VNum 7) in
  store_dispatch Demo.E 1 (VNum 42) s = Some (Threw (JsError Msg.not_plain_object), s) /\
  store_dispatch Demo.E 1 (VArr []) s = Some (Threw (JsError Msg.not_plain_object), s) /\
  store_dispatch Demo.E 1 VNull s = Some (Threw (JsError Msg.not_plain_object), s) /\
  store_dispatch Demo.E 1 (VObj []) s = Some (Threw (JsError Msg.undefined_type), s).
Proof.
  intros s.
  split; [| split; [| split]].
  - apply (C7_malformed_action Demo.E 1 (VNum 42) s). intros [H _]. discriminate H.
  - apply (C7_malformed_action Demo.E 1 (VArr []) s). intros [H _]. discriminate H.
  - apply (C7_malformed_action Demo.E 1 VNull s). intros [H _]. discriminate H.
  - apply (C7_malformed_action Demo.E 1 (VObj []) s). intros [_ H]. apply H. reflexivity.
Defined.

(** The scenario of claim C8 as the specification states it:
    [reducer1] defaults to [{x: 1}], [reducer2] to [{y: 2}]; after
    [createStore(reducer1)] and [store.replaceReducer(reducer2)],
    [store.getState()] is not [{y: 2}], whatever the fuel. *)
Lemma C8_counterexample :
  exists st s0,
    createStore Demo.E 1 (VFun Demo.reducer1) VUndefined (EnhancerValue VUndefined)
    = Some (Returned (st, s0)) /\
    currentState s0 = Demo.obj "x" (VNum 1) /\
    (exists s1,
       run Demo.E 1
           (CallReplaceReducer (VFun Demo.reducer2) (fun _ => CallGetState propagate)) s0
       = Some (Returned (Demo.obj "x" (VNum 1)), s1)) /\
    forall fuel r s1,
      run Demo.E fuel
          (CallReplaceReducer (VFun Demo.reducer2) (fun _ => CallGetState propagate)) s0
      = Some (r, s1) ->
      r = Returned (Demo.obj "x" (VNum 1)) /\ r <> Returned (Demo.obj "y" (VNum 2)).
Proof.
  eexists _, _. split; [vm_compute; reflexivity |]. split; [reflexivity |].
  split; [eexists; vm_compute; reflexivity |].
  intros [|fuel] r s1; [discriminate |].
  vm_compute. intros [= <- <-]. split; [reflexivity | discriminate].
Qed.

(** Claim C8, amended. [replaceReducer(nextReducer)] throws when
    [nextReducer] is not a function and leaves the store as it is;
    otherwise it assigns [currentReducer] and dispatches the reserved
    replace action at once. The new reducer is called with the state the
    store has: when it is a reducer with a default state [d], the state
    assigned by this dispatch is the state the store had, unless that
    was [undefined], in which case it is [d]. *)
Theorem C8_replaceReducer E fuel nextReducer s :
  wf s -> isDispatching s = false ->
  (typeof nextReducer <> "function"%string ->
   store_replaceReducer E fuel nextReducer s
   = Some (Threw (JsError Msg.nextReducer_not_function), s)) /\
  (forall f, nextReducer = VFun f ->
     store_replaceReducer E fuel nextReducer s
     = match store_dispatch E fuel (replace_action E) (with_currentReducer f s) with
       | None => None
       | Some (Threw e, s') => Some (Threw e, s')
       | Some (Returned _, s') => Some (Returned VUndefined, s')
       end) /\
  (forall f d r s',
     nextReducer = VFun f -> body E f = defaulting d ->
     store_replaceReducer E fuel nextReducer s = Some (r, s') ->
     let v := match currentState s with VUndefined => d | state => state end in
     exists evs1 evs2,
       trace s' = trace s ++ EvReducer (ndispatch s) (replace_action E) :: evs1
                          ++ EvCommit (ndispatch s) v :: evs2 /\
       Forall is_emit evs1 /\
       currentState s' = last_commit evs2 v).
Proof.
  intros W Hd.
  assert (Hswap : forall f,
    store_replaceReducer E fuel (VFun f) s
    = match store_dispatch E fuel (replace_action E) (with_currentReducer f s) with
      | None => None
      | Some (Threw e, s') => Some (Threw e, s')
      | Some (Returned _, s') => Some (Returned VUndefined, s')
      end) by done.
  split_and!.
  - intros Ht. by destruct nextReducer.
  - by intros f ->.
  - intros f d r s' -> Hbody H v.
    rewrite Hswap in H.
    destruct (with_currentReducer_ok f s W) as [W1 _].
    set (s1 := with_currentReducer f s) in *.
    destruct (store_dispatch E fuel (replace_action E) s1) as [[r2 s2]|] eqn:Hdis;
      [| done].
    assert (s' = s2) as -> by (destruct r2; by injection H as _ <-).
    assert (Hv : valid_action (replace_action E)) by (by split).
    destruct fuel as [|n]; [by rewrite store_dispatch_unfold in Hdis |].
    assert (Hr : reducer_call E (S n) (replace_action E) s1
                 = Some (Returned v, gated (replace_action E) s1)).
    { unfold reducer_call. simpl. rewrite Hbody. subst v.
      by destruct (currentState s). }
    destruct (reducer_returned _ _ _ _ _ _ _ _ W1 Hd Hv Hr Hdis)
      as (_ & _ & evs1 & evs2 & T & M & C & _).
    by exists evs1, evs2.
Qed.

Lemma C8_witness :
  let s0 := Demo.final Demo.store1
              (store_dispatch Demo.E 1 (Demo.action (INIT Demo.E)) Demo.store1) in
  let s1 := Demo.final s0 (store_replaceReducer Demo.E 1 (VFun Demo.reducer2) s0) in
  currentState s0 = Demo.obj "x" (VNum 1) /\
  store_replaceReducer Demo.E 1 (VNum 5) s0
  = Some (Threw (JsError Msg.nextReducer_not_function), s0) /\
  store_replaceReducer Demo.E 1 (VFun Demo.reducer2) s0 = Some (Returned VUndefined, s1) /\
  currentReducer s1 = Demo.reducer2 /\
  getState s1 = (Returned (Demo.obj "x" (VNum 1)), s1).
Proof.
  intros s0 s1.
  assert (W0 : wf s0).
  { apply (store_dispatch_spec Demo.E 1 (Demo.action (INIT Demo.E)) Demo.store1
             (Returned (Demo.action (INIT Demo.E))) s0).
    - apply wf_initial_store.
    - vm_compute. reflexivity. }
  destruct (C8_replaceReducer Demo.E 1 (VNum 5) s0 W0 eq_refl) as (H1 & _ & _).
  split; [vm_compute; reflexivity |].
  split; [apply H1; vm_compute; discriminate |].
  split; [vm_compute; reflexivity |].
  split; vm_compute; reflexivity.
Defined.

(** Claim C9. The [unsubscribe] closure. Let [subscribe(l)] return the
    closure [h] on an idle store. Its [isSubscribed] variable is true;
    and in every store,
    - while the variable is true and the gate is clear, a call removes
      [l] from the working list by identity (the first entry that is [l])
      and sets the variable to false, after which every call, in every
      store reached later, returns without an error and without touching
      the store;
    - once the variable is false, a call returns without an error and
      leaves the store as it is;
    - while the variable is true and the gate is set, a call throws and
      leaves the store as it is. *)
Theorem C9_unsubscribe l s0 h s1 :
  wf s0 -> isDispatching s0 = false ->
  subscribe (VFun l) s0 = (Returned h, s1) ->
  subs s1 !! h = Some (l, true) /\
  (forall s, wf s -> subs s !! h = Some (l, true) -> isDispatching s = false ->
     exists s',
       unsubscribe h s = (Returned VUndefined, s') /\
       In l (working s) /\
       working s' = remove_first l (working s) /\
       subs s' !! h = Some (l, false) /\
       forall s'', ext s' s'' -> unsubscribe h s'' = (Returned VUndefined, s'')) /\
  (forall s, subs s !! h = Some (l, false) ->
     unsubscribe h s = (Returned VUndefined, s)) /\
  (forall s, subs s !! h = Some (l, true) -> isDispatching s = true ->
     unsubscribe h s = (Threw (JsError Msg.unsubscribe_while_dispatching), s)).
Proof.
  intros W0 Hd0 H0.
  assert (Hdead : forall s, subs s !! h = Some (l, false) ->
                            unsubscribe h s = (Returned VUndefined, s)).
  { intros s Hh. unfold unsubscribe. by rewrite Hh. }
  split_and!.
  - destruct (subscribe_spec l s0 W0 Hd0) as (s1' & He & _ & Hu & _).
    rewrite He in H0. injection H0 as <- <-. rewrite Hu.
    rewrite lookup_app_r, Nat.sub_diag by done. done.
  - intros s W Hh Hd.
    destruct (unsubscribe_spec h l s W Hd Hh) as (s' & He & Hw & Hin & Hu & _).
    exists s'. split_and!; try done.
    + rewrite Hu. apply list_lookup_insert_eq. by eapply lookup_lt_Some.
    + intros s'' X. apply Hdead. apply (ext_unsubscribed _ _ _ X).
      rewrite Hu. apply list_lookup_insert_eq. by eapply lookup_lt_Some.
  - done.
  - intros s Hh Hd. unfold unsubscribe. by rewrite Hh, Hd.
Qed.

Lemma C9_witness :
  let s0 := Demo.store1 in
  let s1 := snd (subscribe (VFun Demo.listenerB) s0) in
  let s2 := snd (unsubscribe 0 s1) in
  working s1 = [Demo.listenerB] /\
  unsubscribe 0 s1 = (Returned VUndefined, s2) /\ working s2 = [] /\
  unsubscribe 0 s2 = (Returned VUndefined, s2) /\
  unsubscribe 0 (gated (Demo.action "A") s1)
  = (Threw (JsError Msg.unsubscribe_while_dispatching), gated (Demo.action "A") s1).
Proof.
  intros s0 s1 s2.
  assert (W0 : wf s0) by apply wf_initial_store.
  assert (H0 : subscribe (VFun Demo.listenerB) s0 = (Returned 0, s1))
    by (vm_compute; reflexivity).
  destruct (C9_unsubscribe Demo.listenerB s0 0 s1 W0 eq_refl H0)
    as (Hh & Hfirst & Hdead & Hgate).
  destruct (subscribe_ok _ _ _ _ W0 H0) as [W1 _].
  destruct (Hfirst s1 W1 Hh eq_refl) as (s' & He & _ & Hw & _ & Hlater).
  assert (s' = s2) as -> by (unfold s2; by rewrite He).
  split; [vm_compute; reflexivity |].
  split; [exact He |].
  split; [vm_compute; reflexivity |].
  split; [apply Hlater, ext_from_refl |].
  apply Hgate; [exact Hh | reflexivity].
Defined.

(** Claim C10. A listener that throws. Let the reducer return [v] in the
    dispatch of a valid action on an idle store whose working list is
    [pre ++ l :: post]; let the listeners of [pre], called in order from
    the store in which the notification starts, all return, and let the
    call of [l] that follows throw [e]. Then the dispatch throws [e] to
    its caller, in the store the call of [l] left; the loop has called
    the listeners of [pre] and [l], and none of [post]; the gate is
    clear; [v] was assigned to the state before the loop and is not
    taken back: [getState] returns [v], or what a dispatch made by a
    listener assigned after it. The bound [fuel] on the turns of the
    loop is more than the length of the list. *)
Theorem C10_listener_throws E fuel action s v s1 pre l post sk e s' :
  wf s -> isDispatching s = false -> valid_action action ->
  length (working s) < fuel ->
  reducer_call E fuel action s = Some (Returned v, s1) ->
  working s = pre ++ l :: post ->
  call_listeners E fuel (ndispatch s) pre (committing (ndispatch s) v s1)
  = Some (Returned tt, sk) ->
  call E fuel (body E l []) (log (EvListener (ndispatch s) l) sk) = Some (Threw e, s') ->
  let d := ndispatch s in
  store_dispatch E fuel action s = Some (Threw e, s') /\
  isDispatching s' = false /\
  exists evs1 evs2,
    trace s' = trace s ++ EvReducer d action :: evs1 ++ EvCommit d v :: evs2 /\
    Forall is_emit evs1 /\
    listeners_of d evs2 = pre ++ [l] /\
    listeners_of d evs2 = take (S (length pre)) (working s) /\
    getState s' = (Returned (last_commit evs2 v), s') /\
    ((forall d' v', ~ In (EvCommit d' v') evs2) -> getState s' = (Returned v, s')).
Proof.
  intros W Hd Hv Hfuel Hr Hw Hpre Hl d.
  destruct (committing_spec _ _ _ _ _ _ W Hd Hr)
    as (W3 & Hd3 & N3 & C3 & _ & evs1 & T3 & M1).
  fold d in W3, Hd3, N3, C3, T3, Hpre, Hl. set (s3 := committing d v s1) in *.
  destruct (call_listeners_spec _ _ _ _ _ _ _ W3 Hd3 N3 Hpre)
    as (Wk & Xk & Hdk & Nk & evsA & TA & LA).
  destruct (listener_call_spec _ _ _ _ _ _ _ Wk Hdk Nk Hl)
    as (W' & X' & Hd' & _ & _ & evsB & TB & LB).
  assert (T : trace s' = trace s3 ++ evsA ++ EvListener d l :: evsB)
    by (by rewrite TB, TA, <- app_assoc).
  assert (C : currentState s' = last_commit (evsA ++ EvListener d l :: evsB) v).
  { destruct (ext_trace _ _ _ (ext_from_trans _ _ _ _ Xk X')) as (evs & T' & _ & C' & _).
    rewrite T in T'. apply app_inv_head in T'. subst evs. by rewrite C', C3. }
  assert (L : listeners_of d (evsA ++ EvListener d l :: evsB) = pre ++ [l]).
  { rewrite listeners_of_app, LA. simpl. by rewrite Nat.eqb_refl, LB. }
  assert (Hg : getState s'
               = (Returned (last_commit (evsA ++ EvListener d l :: evsB) v), s'))
    by (unfold getState; by rewrite Hd', C).
  split_and!.
  - rewrite (store_dispatch_total _ _ _ _ _ _ W Hd Hv Hfuel Hr).
    fold d. fold s3. rewrite Hw, call_listeners_app, Hpre.
    cbn [call_listeners]. by rewrite Hl.
  - done.
  - exists evs1, (evsA ++ EvListener d l :: evsB). split_and!; try done.
    + rewrite T, T3, <- !app_assoc. simpl. by rewrite <- !app_assoc.
    + rewrite L, Hw, (cons_middle l pre post), app_assoc. symmetry.
      apply take_app_length'. rewrite length_app. simpl. lia.
    + intros Hnone. rewrite Hg. by rewrite last_commit_unchanged.
Qed.

Lemma C10_witness :
  let s := Demo.subscribed [Demo.listenerC; Demo.throwing_listener; Demo.listenerB]
             Demo.store1 in
  let v := Demo.obj "x" (VNum 1) in
  let s1 := Demo.final s (reducer_call Demo.E 4 (Demo.action "A") s) in
  let sk := Demo.final s1
              (call_listeners Demo.E 4 0 [Demo.listenerC] (committing 0 v s1)) in
  let s' := Demo.final sk
              (call Demo.E 4 (body Demo.E Demo.throwing_listener [])
                 (log (EvListener 0 Demo.throwing_listener) sk)) in
  store_dispatch Demo.E 4 (Demo.action "A") s
  = Some (Threw (JsThrown (VStr "listener failed")), s') /\
  isDispatching s' = false /\
  getState s' = (Returned v, s') /\
  In (EvListener 0 Demo.listenerC) (trace s') /\
  ~ In (EvListener 0 Demo.listenerB) (trace s').
Proof.
  intros s v s1 sk s'.
  assert (W : wf s) by (apply wf_subscribed_list; [apply wf_initial_store | reflexivity]).
  destruct (C10_listener_throws Demo.E 4 (Demo.action "A") s v s1
              [Demo.listenerC] Demo.throwing_listener [Demo.listenerB] sk
              (JsThrown (VStr "listener failed")) s' W)
    as (H & H1 & _).
  - reflexivity.
  - split; [reflexivity | vm_compute; discriminate].
  - vm_compute. lia.
  - vm_compute. reflexivity.
  - vm_compute. reflexivity.
  - vm_compute. reflexivity.
  - vm_compute. reflexivity.
  - split; [exact H |]. split; [exact H1 |].
    split; [vm_compute; reflexivity |].
    split; [vm_compute; tauto | absent].
Defined.

(** * Further properties of the code *)

(** ** Construction of a store *)

Lemma valid_init_action E : valid_action (init_action E).
Proof. split; [done |]. simpl. discriminate. Qed.

(** [createStore(reducer, preloadedState)] when [preloadedState] is not
    a function: the branch that makes the store. *)
Lemma createStore_plain E fuel reducer preloadedState :
  typeof preloadedState <> "function"%string ->
  createStore E fuel reducer preloadedState (EnhancerValue VUndefined)
  = match reducer with
    | VFun f =>
        match store_dispatch E fuel (init_action E) (initial_store f preloadedState) with
        | None => None
        | Some (Threw e, _) => Some (Threw e)
        | Some (Returned _, s') => Some (Returned (mkStoreObject raw_dispatch, s'))
        end
    | _ => Some (Threw (JsError Msg.reducer_not_function))
    end.
Proof.
  intros Ht. apply String.eqb_neq in Ht.
  destruct fuel; simpl; rewrite Ht; reflexivity.
Qed.

Lemma notify_empty E invoke n listeners d i s :
  array_at s listeners = [] ->
  notify E invoke (S n) listeners d i s = Some (Returned tt, s).
Proof. intros H. simpl. rewrite H. by destruct i. Qed.

(** X1. Seeding of the state. [createStore(reducer, preloadedState)],
    with a function for [reducer] and a [preloadedState] that is not a
    function, calls [reducer(preloadedState, { type: INIT })] once on
    the new store. When that call throws, [createStore] throws the same
    exception. When it returns [v], [createStore] returns a store whose
    [dispatch] is the store's own, in which [getState()] returns [v],
    no listener is registered, and the only events are this reducer
    call, its output and the assignment of [v]. *)
Theorem X1_createStore_seeds_state E fuel f preloadedState r s1 :
  typeof preloadedState <> "function"%string ->
  reducer_call E fuel (init_action E) (initial_store f preloadedState) = Some (r, s1) ->
  match r with
  | Threw e =>
      createStore E fuel (VFun f) preloadedState (EnhancerValue VUndefined)
      = Some (Threw e)
  | Returned v =>
      exists s,
        createStore E fuel (VFun f) preloadedState (EnhancerValue VUndefined)
        = Some (Returned (mkStoreObject raw_dispatch, s)) /\
        getState s = (Returned v, s) /\
        working s = [] /\ subs s = [] /\ wf s /\
        exists evs,
          trace s = EvReducer 0 (init_action E) :: evs ++ [EvCommit 0 v] /\
          Forall is_emit evs
  end.
Proof.
  intros Ht Hr. rewrite (createStore_plain _ _ _ _ Ht).
  set (s0 := initial_store f preloadedState) in *.
  assert (W0 : wf s0) by apply wf_initial_store.
  rewrite (store_dispatch_unfold E fuel (init_action E) s0 (valid_init_action E) eq_refl).
  rewrite Hr. destruct r as [v|e]; [| done].
  destruct fuel as [|n]; [done |].
  destruct (call_ok _ _ _ _ _ _ (wf_gated (init_action E) s0 W0) Hr) as [W1 Xr].
  destruct (committing_ok (init_action E) v s0 s1 W0 eq_refl W1 Xr)
    as (W3 & Xc & Hd3 & Hn3 & Hs3 & _ & Ha3 & evs & T3 & M3).
  cbv zeta. change (ndispatch s0) with 0 in *.
  set (s3 := committing 0 v s1) in *.
  rewrite (notify_empty E _ n _ 0 0 s3 Ha3).
  exists s3. split; [done |].
  destruct (gated_run (gated (init_action E) s0) s1 eq_refl Xr)
    as (_ & _ & _ & _ & _ & Hu & _).
  split_and!.
  - unfold getState. by rewrite Hd3, Hs3.
  - change (working s3) with (array_at s3 (nextListeners s3)).
    rewrite Ha3. reflexivity.
  - subst s3. simpl. rewrite Hu. reflexivity.
  - done.
  - exists evs. by split.
Qed.

Lemma X1_witness :
  exists s,
    createStore Demo.E 1 (VFun Demo.reducer1) VUndefined (EnhancerValue VUndefined)
    = Some (Returned (mkStoreObject raw_dispatch, s)) /\
    getState s = (Returned (Demo.obj "x" (VNum 1)), s) /\
    working s = [].
Proof.
  destruct (X1_createStore_seeds_state Demo.E 1 Demo.reducer1 VUndefined
              (Returned (Demo.obj "x" (VNum 1)))
              (gated (init_action Demo.E) (initial_store Demo.reducer1 VUndefined)))
    as (s & Hc & Hg & Hw & _).
  - discriminate.
  - vm_compute. reflexivity.
  - exists s. split; [exact Hc |]. split; [exact Hg | exact Hw].
Defined.

(** X2. Arguments of [createStore]. A function given as second argument
    with no third argument is taken as the enhancer, the preloaded state
    being [undefined]. An enhancer that is neither [undefined] nor a
    function is refused with an error, whatever the other arguments.
    Without enhancer, a reducer that is not a function is refused with
    an error. With an enhancer, the result is the one of
    [enhancer(createStore)(reducer, preloadedState)], and the reducer is
    not examined by this call. *)
Theorem X2_createStore_arguments E fuel reducer preloadedState :
  (forall f,
     createStore E fuel reducer (VFun f) (EnhancerValue VUndefined)
     = createStore E fuel reducer VUndefined (EnhancerValue (VFun f))) /\
  (forall v,
     typeof v <> "undefined"%string -> typeof v <> "function"%string ->
     createStore E fuel reducer preloadedState (EnhancerValue v)
     = Some (Threw (JsError Msg.enhancer_not_function))) /\
  (typeof preloadedState <> "function"%string ->
   typeof reducer <> "function"%string ->
   createStore E fuel reducer preloadedState (EnhancerValue VUndefined)
   = Some (Threw (JsError Msg.reducer_not_function))) /\
  (forall e n,
     createStore E (S n) reducer preloadedState (EnhancerFn e)
     = e (base_createStore E n) reducer preloadedState).
Proof.
  split_and!.
  - intros f. destruct fuel; reflexivity.
  - intros v Hu Hf.
    assert (Hu' := proj2 (String.eqb_neq _ _) Hu).
    destruct v; try done; destruct fuel; simpl in *;
      rewrite ?andb_false_r; reflexivity.
  - intros Hp Hr. rewrite (createStore_plain _ _ _ _ Hp). by destruct reducer.
  - intros e n. simpl. rewrite andb_false_r. reflexivity.
Qed.

Lemma X2_witness :
  createStore Demo.E 1 (VFun Demo.reducer1) VUndefined (EnhancerValue (VNum 3))
  = Some (Threw (JsError Msg.enhancer_not_function)) /\
  createStore Demo.E 1 (VNum 3) VUndefined (EnhancerValue VUndefined)
  = Some (Threw (JsError Msg.reducer_not_function)).
Proof.
  destruct (X2_createStore_arguments Demo.E 1 (VFun Demo.reducer1) VUndefined)
    as (_ & He & _).
  destruct (X2_createStore_arguments Demo.E 1 (VNum 3) VUndefined)
    as (_ & _ & Hr & _).
  split.
  - apply He; discriminate.
  - apply Hr; discriminate.
Defined.

(** ** Composition *)

(** [compose] applies its functions from the last to the first, for
    every number of functions. *)
Lemma compose_is_right_to_left {T : Type} (undefined : T)
    (funcs : list (list T -> T)) (args : list T) :
  compose undefined funcs args = right_to_left undefined funcs args.
Proof.
  destruct funcs as [|f [|g rest]]; [reflexivity | reflexivity |].
  unfold compose. by rewrite (reduce_right_to_left undefined).
Qed.

Lemma right_to_left_app {T : Type} (undefined : T) (fs gs : list (list T -> T))
    (args : list T) :
  gs <> [] \/ length args = 1 ->
  right_to_left undefined (fs ++ gs) args
  = right_to_left undefined fs [right_to_left undefined gs args].
Proof.
  intros H. induction fs as [|f fs IH].
  - reflexivity.
  - destruct fs as [|f' fs].
    + destruct gs as [|g gs]; [| reflexivity].
      destruct H as [H|H]; [done |].
      destruct args as [|a [|b args]]; try done.
    + change (f [right_to_left undefined ((f' :: fs) ++ gs) args]
              = f [right_to_left undefined (f' :: fs)
                     [right_to_left undefined gs args]]).
      by rewrite IH.
Qed.

(** X3. Composition of compositions. Composing a list of functions
    followed by a second list is composing the two compositions:
    [compose(...fs, ...gs)] and [compose(compose(...fs), compose(...gs))]
    return the same result on every argument list, provided the second
    list is not empty or exactly one argument is passed (the composition
    of no function drops all arguments but the first). *)
Theorem X3_compose_concatenation {T : Type} (undefined : T)
    (fs gs : list (list T -> T)) (args : list T) :
  gs <> [] \/ length args = 1 ->
  compose undefined (fs ++ gs) args
  = compose undefined [compose undefined fs; compose undefined gs] args.
Proof.
  intros H.
  change (compose undefined [compose undefined fs; compose undefined gs] args)
    with (compose undefined fs [compose undefined gs args]).
  rewrite !compose_is_right_to_left. by apply right_to_left_app.
Qed.

Lemma X3_witness :
  let double : list Z -> Z := fun args => (2 * hd 0 args)%Z in
  let sum : list Z -> Z := fun args => foldr Z.add 0%Z args in
  compose 0%Z ([double; double] ++ [double; sum]) [1; 2; 3]%Z
  = compose 0%Z [compose 0%Z [double; double]; compose 0%Z [double; sum]] [1; 2; 3]%Z /\
  compose 0%Z [double; double; double; sum] [1; 2; 3]%Z = 48%Z.
Proof.
  split.
  - apply (X3_compose_concatenation 0%Z). left. discriminate.
  - vm_compute. reflexivity.
Defined.

(** ** Middleware *)

Lemma nested_right_to_left (chain : list (DispatchFn -> DispatchFn))
    (base : DispatchFn) :
  compose undefined_fn (map (unary undefined_fn) chain) [base] = nested chain base.
Proof.
  rewrite compose_is_right_to_left.
  induction chain as [|w chain IH]; [reflexivity |].
  destruct chain as [|w' chain]; [reflexivity |].
  change (w (right_to_left undefined_fn (map (unary undefined_fn) (w' :: chain)) [base])
          = w (nested (w' :: chain) base)).
  by rewrite IH.
Qed.

Lemma build_chain_app E fuel (pre post : list Middleware) : forall s,
  build_chain E fuel (pre ++ post) s
  = match build_chain E fuel pre s with
    | None => None
    | Some (Threw e, s1) => Some (Threw e, s1)
    | Some (Returned ws, s1) =>
        match build_chain E fuel post s1 with
        | None => None
        | Some (Threw e, s2) => Some (Threw e, s2)
        | Some (Returned ws', s2) => Some (Returned (ws ++ ws'), s2)
        end
    end.
Proof.
  induction pre as [|m pre IH]; intros s; simpl.
  - by destruct (build_chain E fuel post s) as [[[ws|e] s1]|].
  - destruct (run E fuel (m middlewareAPI) s) as [[[w|e] s1]|]; [| done | done].
    rewrite IH.
    destruct (build_chain E fuel pre s1) as [[[ws|e] s2]|]; [| done | done].
    by destruct (build_chain E fuel post s2) as [[[ws'|e] s3]|].
Qed.

Lemma build_chain_length E fuel (middlewares : list Middleware) : forall s chain s',
  build_chain E fuel middlewares s = Some (Returned chain, s') ->
  length chain = length middlewares.
Proof.
  induction middlewares as [|m rest IH]; intros s chain s' H; simpl in H.
  - by injection H as <- <-.
  - destruct (run E fuel (m middlewareAPI) s) as [[[w|e] s1]|]; [| done | done].
    destruct (build_chain E fuel rest s1) as [[[ws|e] s2]|] eqn:Hr; [| done | done].
    injection H as <- <-. simpl. f_equal. by eapply IH.
Qed.

(** X4. The dispatch of an enhanced store. When the store creator
    returns a base store, [applyMiddleware(...middlewares)] calls every
    middleware once, in order, on that store, with the placeholder as
    [dispatch]. If one of them throws, the exception leaves
    [applyMiddleware] and no store is returned. Otherwise the store
    returned has for [dispatch] the wrappers applied to the base
    [dispatch] from the last to the first, [w1 (w2 (... (wn
    store.dispatch)))], one wrapper per middleware. *)
Theorem X4_applyMiddleware_nests E fuel (middlewares : list Middleware)
    (creator : StoreCreator) reducer preloadedState base s0 :
  creator reducer preloadedState = Some (Returned (base, s0)) ->
  applyMiddleware E fuel middlewares creator reducer preloadedState
  = match build_chain (with_dispatch_cell None E) fuel middlewares s0 with
    | None => None
    | Some (Threw e, _) => Some (Threw e)
    | Some (Returned chain, s) =>
        Some (Returned (mkStoreObject (nested chain (dispatch_of base)), s))
    end /\
  (forall chain s,
     build_chain (with_dispatch_cell None E) fuel middlewares s0
     = Some (Returned chain, s) ->
     length chain = length middlewares).
Proof.
  intros Hc. split.
  - unfold applyMiddleware. rewrite Hc.
    destruct (build_chain _ fuel middlewares s0) as [[[chain|e] s]|]; [| done | done].
    by rewrite nested_right_to_left.
  - intros chain s. apply build_chain_length.
Qed.

Lemma X4_witness :
  exists enhanced s0 s2,
    applyMiddleware Demo.E 1 [logger (VNum 1); logger (VNum 2); logger (VNum 3)]
      (base_createStore Demo.E 1) (VFun Demo.reducer1) VUndefined
    = Some (Returned (enhanced, s0)) /\
    run (enhanced_env Demo.E enhanced) 1 (dispatch_of enhanced (Demo.action "A")) s0
    = Some (Returned (Demo.action "A"), s2) /\
    trace s2 = trace s0 ++
      [EvEmit (entering (VNum 1)); EvEmit (entering (VNum 2));
       EvEmit (entering (VNum 3));
       EvReducer 1 (Demo.action "A"); EvCommit 1 (Demo.obj "x" (VNum 1));
       EvEmit (exiting (VNum 3)); EvEmit (exiting (VNum 2));
       EvEmit (exiting (VNum 1))].
Proof.
  destruct (X4_applyMiddleware_nests Demo.E 1
              [logger (VNum 1); logger (VNum 2); logger (VNum 3)]
              (base_createStore Demo.E 1) (VFun Demo.reducer1) VUndefined
              (mkStoreObject raw_dispatch)
              (Demo.final Demo.store1
                 (store_dispatch Demo.E 1 (Demo.action (INIT Demo.E)) Demo.store1)))
    as [H _].
  - vm_compute. reflexivity.
  - eexists _, _, _. split; [rewrite H; vm_compute; reflexivity |].
    split; vm_compute; reflexivity.
Defined.

(** X5. No middleware. [applyMiddleware()] without middleware returns
    the base store with its own [dispatch]; so
    [createStore(reducer, preloadedState, applyMiddleware())] gives what
    [createStore(reducer, preloadedState)] gives: the same store, the
    same exception, or the same absence of an answer. *)
Theorem X5_createStore_without_middleware E E' n m reducer preloadedState :
  createStore E (S n) reducer preloadedState (EnhancerFn (applyMiddleware E' m []))
  = createStore E n reducer preloadedState (EnhancerValue VUndefined).
Proof.
  assert (H : createStore E (S n) reducer preloadedState
                (EnhancerFn (applyMiddleware E' m []))
              = applyMiddleware E' m [] (base_createStore E n) reducer preloadedState).
  { simpl. rewrite andb_false_r. reflexivity. }
  rewrite H. unfold applyMiddleware, base_createStore.
  destruct (createStore E n reducer preloadedState (EnhancerValue VUndefined))
    as [[[[d] s]|e]|]; reflexivity.
Qed.

(** X6. Dispatching while the middleware are set up. A middleware that
    calls [middlewareAPI.dispatch] while [applyMiddleware] is calling
    it, outside any [try], makes [applyMiddleware] throw the error of
    the placeholder, whatever the action and whatever the middleware
    before it (which returned) and after it (which are not called); no
    store is returned. *)
Theorem X6_dispatch_while_constructing E fuel (pre post : list Middleware)
    (m : Middleware) (creator : StoreCreator) reducer preloadedState
    base s0 chain s1 action (k : value -> prog (DispatchFn -> DispatchFn)) :
  creator reducer preloadedState = Some (Returned (base, s0)) ->
  build_chain (with_dispatch_cell None E) fuel pre s0 = Some (Returned chain, s1) ->
  m middlewareAPI = bind (api_dispatch_fn middlewareAPI action) k ->
  applyMiddleware E fuel (pre ++ m :: post) creator reducer preloadedState
  = Some (Threw (JsError Msg.dispatching_while_constructing)).
Proof.
  intros Hc Hpre Hm. unfold applyMiddleware. rewrite Hc, build_chain_app, Hpre.
  simpl. rewrite Hm. reflexivity.
Qed.

Lemma X6_witness :
  applyMiddleware Demo.E 1
    ([logger (VNum 1)] ++
     (fun api => bind (api_dispatch_fn api (Demo.action "EAGER"))
                      (fun _ => Ret (fun next => next)))
     :: [logger (VNum 2)])
    (base_createStore Demo.E 1) (VFun Demo.reducer1) VUndefined
  = Some (Threw (JsError Msg.dispatching_while_constructing)).
Proof.
  eapply (X6_dispatch_while_constructing Demo.E 1 [logger (VNum 1)] [logger (VNum 2)]).
  - vm_compute. reflexivity.
  - vm_compute. reflexivity.
  - reflexivity.
Defined.

(** [middlewareAPI.dispatch] once [applyMiddleware] has assigned the
    composed chain to its [dispatch] variable. *)
Lemma api_dispatch_enhanced E enhanced n action s :
  api_dispatch (enhanced_env E enhanced) (call (enhanced_env E enhanced) (S n)) action s
  = run (enhanced_env E enhanced) n (dispatch_of enhanced action) s.
Proof. reflexivity. Qed.

(** X7. The late-bound [dispatch] of a middleware. Let a store be built
    by [applyMiddleware(M1, M2)], [M1] logging on entry and on exit
    around [next], and [M2] sending the actions of type [name] again,
    as another action, through [middlewareAPI.dispatch]. Dispatching an
    action of type [name] on the enhanced store enters [M1], reaches
    [M2], and the action sent again enters [M1] a second time before it
    reaches the base [dispatch]: [middlewareAPI.dispatch] is the
    [dispatch] of the enhanced store, not [next]. When the base
    dispatch returns, [M1] is left twice; an exception leaves through
    both. *)
Theorem X7_middleware_dispatch_reenters_chain
    E fuel (creator : StoreCreator) reducer preloadedState base s0
    a name action other :
  creator reducer preloadedState = Some (Returned (base, s0)) ->
  get_prop action "type" = VStr name ->
  get_prop other "type" <> VStr name ->
  exists enhanced,
    applyMiddleware E fuel [logger a; redirecting name other] creator
      reducer preloadedState
    = Some (Returned (enhanced, s0)) /\
    forall n s,
      run (enhanced_env E enhanced) (S n) (dispatch_of enhanced action) s
      = match run (enhanced_env E enhanced) n (dispatch_of base other)
                  (log (EvEmit (entering a)) (log (EvEmit (entering a)) s)) with
        | None => None
        | Some (Threw e, s1) => Some (Threw e, s1)
        | Some (Returned v, s1) =>
            Some (Returned v, log (EvEmit (exiting a)) (log (EvEmit (exiting a)) s1))
        end.
Proof.
  intros Hc Ha Ho.
  set (wa := fun (next : DispatchFn) (x : value) =>
         Emit (entering a) (bind (next x) (fun r => Emit (exiting a) (Ret r)))).
  set (wr := fun (next : DispatchFn) (x : value) =>
         match get_prop x "type" with
         | VStr t =>
             if String.eqb t name then api_dispatch_fn middlewareAPI other else next x
         | _ => next x
         end).
  exists (mkStoreObject (compose undefined_fn (map (unary undefined_fn) [wa; wr])
                           [dispatch_of base])).
  split.
  { unfold applyMiddleware. rewrite Hc. reflexivity. }
  set (enhanced := mkStoreObject _).
  set (E' := enhanced_env E enhanced).
  assert (Hd : forall x, dispatch_of enhanced x = wa (wr (dispatch_of base)) x).
  { intros x. subst enhanced. cbn [dispatch_of]. by rewrite compose_two_wrappers. }
  assert (Hother : wr (dispatch_of base) other = dispatch_of base other).
  { subst wr. cbv beta. destruct (get_prop other "type") as [| | | |t| | | |]; try done.
    destruct (String.eqb_spec t name) as [->|]; done. }
  assert (Haction : wr (dispatch_of base) action = CallApiDispatch other propagate).
  { subst wr. cbv beta. rewrite Ha, String.eqb_refl. reflexivity. }
  assert (Hinner : forall n s,
    run E' n (dispatch_of enhanced other) s
    = match run E' n (dispatch_of base other) (log (EvEmit (entering a)) s) with
      | None => None
      | Some (Threw e, s1) => Some (Threw e, s1)
      | Some (Returned v, s1) => Some (Returned v, log (EvEmit (exiting a)) s1)
      end).
  { intros n s. rewrite Hd. unfold wa at 1. rewrite Hother.
    unfold run. cbn [exec]. rewrite exec_bind.
    by destruct (exec E' n (call E' n) (dispatch_of base other) _) as [[[v|e] s1]|]. }
  intros n s. rewrite Hd. unfold wa at 1. rewrite Haction.
  unfold run at 1. cbn [exec bind].
  unfold E' at 1 2. rewrite api_dispatch_enhanced. fold E'.
  rewrite Hinner.
  by destruct (run E' n (dispatch_of base other) _) as [[[v|e] s1]|].
Qed.

Lemma X7_witness :
  exists enhanced s0 s2,
    applyMiddleware Demo.E 1 [logger (VNum 1); redirecting "ASK" (Demo.action "TELL")]
      (base_createStore Demo.E 1) (VFun Demo.reducer1) VUndefined
    = Some (Returned (enhanced, s0)) /\
    run (enhanced_env Demo.E enhanced) 2 (dispatch_of enhanced (Demo.action "ASK")) s0
    = Some (Returned (Demo.action "TELL"), s2) /\
    trace s2 = trace s0 ++
      [EvEmit (entering (VNum 1)); EvEmit (entering (VNum 1));
       EvReducer 1 (Demo.action "TELL"); EvCommit 1 (Demo.obj "x" (VNum 1));
       EvEmit (exiting (VNum 1)); EvEmit (exiting (VNum 1))].
Proof.
  destruct (X7_middleware_dispatch_reenters_chain Demo.E 1 (base_createStore Demo.E 1)
              (VFun Demo.reducer1) VUndefined
              (mkStoreObject raw_dispatch)
              (Demo.final Demo.store1
                 (store_dispatch Demo.E 1 (Demo.action (INIT Demo.E)) Demo.store1))
              (VNum 1) "ASK"%string (Demo.action "ASK") (Demo.action "TELL"))
    as (enhanced & Hbuild & Hrun).
  - vm_compute. reflexivity.
  - reflexivity.
  - discriminate.
  - eexists enhanced, _, _. split; [exact Hbuild |].
    split.
    + rewrite Hrun. vm_compute. reflexivity.
    + vm_compute. reflexivity.
Defined.

Lemma build_chain_pure E fuel (middlewares : list Middleware)
    (chain : list (DispatchFn -> DispatchFn)) s :
  Forall2 (fun m w => m middlewareAPI = Ret w) middlewares chain ->
  build_chain E fuel middlewares s = Some (Returned chain, s).
Proof.
  intros H. induction H as [|m w ms ws Hm _ IH]; [done |].
  simpl. rewrite Hm. unfold run. cbn [exec]. by rewrite IH.
Qed.

(** X8. The initial action does not go through the middleware. Let
    the middleware be functions that return their wrapper without
    calling the store. [createStore(reducer, preloadedState,
    applyMiddleware(...middlewares))] returns the very store that
    [createStore(reducer, preloadedState)] makes, with the same state
    and the same events, and with the nested wrappers for [dispatch]:
    the action [INIT] was dispatched by the base store before any
    wrapper existed, so no middleware has seen it. *)
Theorem X8_init_bypasses_middleware E E' n fuel (middlewares : list Middleware)
    (chain : list (DispatchFn -> DispatchFn)) reducer preloadedState base s :
  Forall2 (fun m w => m middlewareAPI = Ret w) middlewares chain ->
  createStore E n reducer preloadedState (EnhancerValue VUndefined)
  = Some (Returned (base, s)) ->
  createStore E (S n) reducer preloadedState
    (EnhancerFn (applyMiddleware E' fuel middlewares))
  = Some (Returned (mkStoreObject (nested chain (dispatch_of base)), s)).
Proof.
  intros Hpure Hbase.
  assert (H : createStore E (S n) reducer preloadedState
                (EnhancerFn (applyMiddleware E' fuel middlewares))
              = applyMiddleware E' fuel middlewares (base_createStore E n)
                  reducer preloadedState).
  { simpl. rewrite andb_false_r. reflexivity. }
  rewrite H. unfold applyMiddleware, base_createStore. rewrite Hbase.
  rewrite (build_chain_pure _ _ _ chain s Hpure).
  by rewrite nested_right_to_left.
Qed.

Lemma X8_witness :
  exists enhanced s,
    createStore Demo.E 2 (VFun Demo.reducer1) VUndefined
      (EnhancerFn (applyMiddleware Demo.E 1 [logger (VNum 1); logger (VNum 2)]))
    = Some (Returned (enhanced, s)) /\
    trace s = [EvReducer 0 (init_action Demo.E); EvCommit 0 (Demo.obj "x" (VNum 1))].
Proof.
  eexists _, _. split.
  - eapply (X8_init_bypasses_middleware Demo.E Demo.E 1 1
              [logger (VNum 1); logger (VNum 2)] _ (VFun Demo.reducer1) VUndefined
              (mkStoreObject raw_dispatch)
              (Demo.final Demo.store1
                 (store_dispatch Demo.E 1 (init_action Demo.E) Demo.store1))).
    + repeat constructor.
    + vm_compute. reflexivity.
  - vm_compute. reflexivity.
Defined.

(** ** The store between and during dispatches *)

Lemma wf_live_listener s h l :
  wf s -> subs s !! h = Some (l, true) -> In l (working s).
Proof.
  intros W H. apply count_pos_In. rewrite (wf_count _ W).
  by eapply active_count_pos.
Qed.

(** X9. Stores that client code can reach. Take the store made by
    [createStore(reducer, preloadedState)] and run any client code on
    it, to its end. In the store reached the gate is clear, the two
    listener references denote arrays, every listener occurs in the
    working list as many times as it has [unsubscribe] closures not yet
    called, and so a call of any such closure finds its listener
    ([indexOf] is not [-1]) and removes exactly the first entry that is
    this listener: [splice(-1, 1)], which would remove the last entry of
    the list, whatever it is, does not happen. *)
Theorem X9_reachable_stores E fuel reducer preloadedState st s0
    E' fuel' {A : Type} (p : prog A) r s :
  typeof preloadedState <> "function"%string ->
  createStore E fuel reducer preloadedState (EnhancerValue VUndefined)
  = Some (Returned (st, s0)) ->
  run E' fuel' p s0 = Some (r, s) ->
  isDispatching s = false /\
  currentListeners s < length (heap s) /\ nextListeners s < length (heap s) /\
  (forall l, count l (working s) = active_count l (subs s)) /\
  (forall h l, subs s !! h = Some (l, true) ->
     (0 <= indexOf l (working s))%Z /\
     exists s',
       unsubscribe h s = (Returned VUndefined, s') /\
       working s' = remove_first l (working s) /\
       length (working s) = S (length (working s'))).
Proof.
  intros Ht Hc Hr.
  destruct (createStore_wf _ _ _ _ _ _ Ht Hc) as (W0 & Hd0 & _).
  destruct (run_ok _ _ _ _ _ _ W0 Hr) as [W X].
  assert (Hd : isDispatching s = false) by (rewrite (ext_gate _ _ _ X); done).
  split_and!; try done; try apply W.
  intros h l Hs. pose proof (wf_live_listener _ _ _ W Hs) as Hin.
  split; [by apply indexOf_found |].
  destruct (unsubscribe_spec h l s W Hd Hs) as (s' & Hu & Hw & _).
  exists s'. split_and!; try done.
  rewrite Hw. clear -Hin. induction (working s) as [|x w IH]; [done |].
  simpl. destruct (Nat.eqb_spec x l) as [->|Hne]; [done |].
  simpl. f_equal. apply IH. by destruct Hin.
Qed.

Lemma X9_witness :
  let s0 := Demo.final Demo.store1
              (store_dispatch Demo.E 1 (init_action Demo.E) Demo.store1) in
  let p := CallSubscribe (VFun Demo.listenerB) (fun _ =>
           CallSubscribe (VFun Demo.remover) (fun _ =>
           CallDispatch (Demo.action "A") propagate)) in
  let s := Demo.final s0 (run Demo.E 3 p s0) in
  isDispatching s = false /\
  working s = [Demo.listenerB] /\
  subs s = [(Demo.listenerB, true); (Demo.remover, false)] /\
  (0 <= indexOf Demo.listenerB (working s))%Z.
Proof.
  intros s0 p s.
  destruct (X9_reachable_stores Demo.E 1 (VFun Demo.reducer1) VUndefined
              (mkStoreObject raw_dispatch) s0 Demo.E 3 p
              (Returned (Demo.action "A")) s)
    as (Hd & _ & _ & _ & Hlive).
  - discriminate.
  - vm_compute. reflexivity.
  - vm_compute. reflexivity.
  - split; [exact Hd |]. split; [vm_compute; reflexivity |].
    split; [vm_compute; reflexivity |].
    apply (Hlive 0 Demo.listenerB). vm_compute. reflexivity.
Defined.

(** X10. What a reducer cannot do. While [dispatch] runs the reducer,
    whatever the reducer calls ([getState], [subscribe], an
    [unsubscribe] closure, [dispatch], [replaceReducer], any number of
    times, catching the exceptions or not), when the call ends the state
    of the store, its listener arrays and references, the [unsubscribe]
    closures and the gate are those of the moment the reducer was
    called; the only events are the call itself and the reducer's own
    output. *)
Theorem X10_reducer_cannot_touch_store E fuel action s r s1 :
  wf s ->
  reducer_call E fuel action s = Some (r, s1) ->
  currentState s1 = currentState s /\
  heap s1 = heap s /\
  currentListeners s1 = currentListeners s /\
  nextListeners s1 = nextListeners s /\
  subs s1 = subs s /\
  isDispatching s1 = true /\
  exists evs,
    trace s1 = trace s ++ EvReducer (ndispatch s) action :: evs /\
    Forall is_emit evs.
Proof.
  intros W H.
  destruct (call_ok _ _ _ _ _ _ (wf_gated action s W) H) as [_ X].
  destruct (gated_run (gated action s) s1 eq_refl X)
    as (Hd & Hs & Hh & Hc & Hn & Hu & _ & evs & T & M).
  split_and!; try done.
  exists evs. split; [| done]. rewrite T. simpl. by rewrite <- app_assoc.
Qed.

Lemma X10_witness :
  let s := with_currentReducer Demo.dispatching_reducer Demo.storeA in
  let s1 := Demo.final s (reducer_call Demo.E 1 (Demo.action "A") s) in
  currentState s1 = currentState s /\ heap s1 = heap s /\ subs s1 = subs s.
Proof.
  intros s s1.
  destruct (X10_reducer_cannot_touch_store Demo.E 1 (Demo.action "A") s
              (Returned VUndefined) s1)
    as (Hs & Hh & _ & _ & Hu & _).
  - apply with_currentReducer_ok, wf_subscribed_list; [apply wf_initial_store | reflexivity].
  - vm_compute. reflexivity.
  - split; [exact Hs |]. split; [exact Hh | exact Hu].
Defined.

(** X11. [replaceReducer] called by a reducer. While the reducer runs,
    [replaceReducer(f)] with a function [f] throws the error of the
    nested dispatch, yet the assignment [currentReducer = f] that
    precedes its dispatch has been made and stays. So a reducer that
    makes this call inside a [try] and returns a state [v] hands
    [dispatch] a store whose reducer is [f]: the next dispatch will
    call [f]. *)
Theorem X11_replaceReducer_while_dispatching E fuel f s :
  isDispatching s = true ->
  store_replaceReducer E fuel (VFun f) s
  = Some (Threw (JsError Msg.reducers_may_not_dispatch), with_currentReducer f s) /\
  (forall n action v,
     body E (currentReducer s) [currentState s; action]
     = CallReplaceReducer (VFun f) (fun _ => Ret v) ->
     call E (S n) (body E (currentReducer s) [currentState s; action]) s
     = Some (Returned v, with_currentReducer f s)).
Proof.
  intros Hd.
  assert (H : forall gas invoke,
    replaceReducer E gas invoke (VFun f) s
    = Some (Threw (JsError Msg.reducers_may_not_dispatch), with_currentReducer f s)).
  { intros gas invoke. unfold replaceReducer.
    rewrite (dispatch_gated E gas invoke _ (with_currentReducer f s) Hd).
    reflexivity. }
  split; [apply H |].
  intros n action v Hb. rewrite Hb.
  change (call E (S n)) with (@exec E n (call E n) value). cbn [exec].
  rewrite H. reflexivity.
Qed.

Lemma X11_witness :
  store_replaceReducer Demo.E 1 (VFun Demo.reducer2)
    (gated (Demo.action "A") Demo.store1)
  = Some (Threw (JsError Msg.reducers_may_not_dispatch),
          with_currentReducer Demo.reducer2 (gated (Demo.action "A") Demo.store1)).
Proof.
  apply (X11_replaceReducer_while_dispatching Demo.E 1 Demo.reducer2
           (gated (Demo.action "A") Demo.store1)).
  reflexivity.
Defined.

Lemma remove_first_app_new l w :
  ~ In l w -> remove_first l (w ++ [l]) = w.
Proof.
  induction w as [|x w IH]; simpl; intros Hn.
  - by rewrite Nat.eqb_refl.
  - destruct (Nat.eqb_spec x l) as [->|Hne]; [tauto |].
    rewrite IH; [done | tauto].
Qed.

Lemma remove_first_app_old l w :
  In l w -> remove_first l (w ++ [l]) = remove_first l w ++ [l].
Proof.
  induction w as [|x w IH]; simpl; intros Hy; [done |].
  destruct (Nat.eqb_spec x l) as [->|Hne]; [done |].
  rewrite IH; [done | by destruct Hy].
Qed.

Lemma frozen_committed s :
  currentListeners s < length (heap s) -> frozen s (currentListeners s).
Proof.
  intros H. split; [done |].
  destruct (Nat.eq_dec (currentListeners s) (nextListeners s)); auto.
Qed.

(** X12. Subscribing and unsubscribing at once. In an idle store,
    [subscribe(l)] followed by a call of the closure it returned leaves
    every listener with the number of entries it had in the working
    list, and leaves the committed array untouched. When [l] was not
    registered before, the working list is the one before. When [l] was
    already registered, the entry removed is the earlier one ([indexOf]
    finds the first): [l] ends up at the end of the list, behind the
    listeners it used to precede. *)
Theorem X12_subscribe_unsubscribe_round_trip l s :
  wf s -> isDispatching s = false ->
  exists s1 s2,
    subscribe (VFun l) s = (Returned (length (subs s)), s1) /\
    unsubscribe (length (subs s)) s1 = (Returned VUndefined, s2) /\
    (forall l', count l' (working s2) = count l' (working s)) /\
    (~ In l (working s) -> working s2 = working s) /\
    (In l (working s) -> working s2 = remove_first l (working s) ++ [l]) /\
    array_at s2 (currentListeners s) = committed s /\
    currentListeners s2 = currentListeners s /\
    currentState s2 = currentState s /\
    wf s2.
Proof.
  intros W Hd.
  destruct (subscribe_spec l s W Hd)
    as (s1 & Hs & Hw1 & Hu1 & _ & Hc1 & _ & Hs1 & Hd1 & _ & _ & _ & _ & F1).
  destruct (subscribe_ok _ _ _ _ W Hs) as [W1 _].
  assert (Hl : subs s1 !! length (subs s) = Some (l, true)).
  { rewrite Hu1. by rewrite list_lookup_middle. }
  destruct (unsubscribe_spec _ l s1 W1 Hd1 Hl)
    as (s2 & Hu & Hw2 & Hin & _ & _ & Hc2 & _ & Hs2 & _ & _ & _ & _ & _ & F2).
  destruct (unsubscribe_ok _ _ _ _ W1 Hu) as [W2 _].
  exists s1, s2. split_and!; try done; try congruence.
  - intros l'. pose proof (count_remove_first l l' _ Hin) as Hcnt.
    rewrite <- Hw2, Hw1, count_app in Hcnt. simpl in Hcnt. lia.
  - intros Hn. rewrite Hw2, Hw1. by apply remove_first_app_new.
  - intros Hy. rewrite Hw2, Hw1. by apply remove_first_app_old.
  - destruct (F1 _ (frozen_committed s (wf_current _ W))) as [Fz E1].
    destruct (F2 _ Fz) as [_ E2]. unfold committed. congruence.
Qed.

Lemma X12_witness :
  exists s1 s2,
    subscribe (VFun Demo.remover) Demo.storeRC = (Returned 2, s1) /\
    unsubscribe 2 s1 = (Returned VUndefined, s2) /\
    working Demo.storeRC = [Demo.remover; Demo.listenerC] /\
    working s2 = [Demo.listenerC; Demo.remover].
Proof.
  destruct (X12_subscribe_unsubscribe_round_trip Demo.remover Demo.storeRC)
    as (s1 & s2 & Hs & Hu & _ & _ & Hmove & _).
  - apply wf_subscribed_list; [apply wf_initial_store | reflexivity].
  - reflexivity.
  - exists s1, s2. split; [exact Hs |]. split; [exact Hu |].
    split; [reflexivity |]. rewrite Hmove; [reflexivity |]. left. reflexivity.
Defined.

Lemma subscribe_each_spec ls : forall s,
  wf s -> isDispatching s = false ->
  wf (subscribe_each ls s) /\ isDispatching (subscribe_each ls s) = false /\
  working (subscribe_each ls s) = working s ++ ls /\
  ndispatch (subscribe_each ls s) = ndispatch s /\
  currentState (subscribe_each ls s) = currentState s.
Proof.
  induction ls as [|l ls IH]; intros s W Hd.
  - simpl. by rewrite app_nil_r.
  - change (subscribe_each (l :: ls) s)
      with (subscribe_each ls (snd (subscribe (VFun l) s))).
    destruct (subscribe_spec l s W Hd)
      as (s1 & Hs & Hw1 & _ & _ & _ & _ & Hs1 & Hd1 & Hn1 & _).
    destruct (subscribe_ok _ _ _ _ W Hs) as [W1 _].
    rewrite Hs. simpl. destruct (IH s1 W1 Hd1) as (W' & Hd' & Hw' & Hn' & Hs').
    split_and!; try done; try congruence.
    rewrite Hw', Hw1, <- app_assoc. done.
Qed.

(** X13. Order of notification. After client code has subscribed the
    listeners [ls] one after the other on an idle store, a dispatch that
    returns has returned the action it was given, and its loop has
    called the listeners registered before, then those of [ls] in the
    order of their subscription, a listener subscribed several times
    being called once for each subscription. *)
Theorem X13_registration_order E fuel ls action s v s' :
  wf s -> isDispatching s = false ->
  store_dispatch E fuel action (subscribe_each ls s) = Some (Returned v, s') ->
  v = action /\
  exists evs,
    trace s' = trace (subscribe_each ls s) ++ evs /\
    listeners_of (ndispatch s) evs = working s ++ ls.
Proof.
  intros W Hd H.
  destruct (subscribe_each_spec ls s W Hd) as (W1 & Hd1 & Hw1 & Hn1 & _).
  destruct (store_dispatch_spec _ _ _ _ _ _ W1 H) as (_ & _ & Hspec).
  destruct (Hspec Hd1) as (evs & k & T & L & R).
  destruct (R v eq_refl) as [Hk ->]. split; [done |].
  exists evs. split; [done |].
  rewrite <- Hn1, L, take_ge by done. done.
Qed.

Lemma X13_witness :
  let ls := [Demo.listenerC; Demo.listenerB; Demo.listenerC] in
  let s1 := subscribe_each ls Demo.store1 in
  let s' := Demo.final s1 (store_dispatch Demo.E 4 (Demo.action "A") s1) in
  exists evs,
    trace s' = trace s1 ++ evs /\
    listeners_of 0 evs = [Demo.listenerC; Demo.listenerB; Demo.listenerC].
Proof.
  intros ls s1 s'.
  destruct (X13_registration_order Demo.E 4 ls (Demo.action "A") Demo.store1
              (Demo.action "A") s')
    as (_ & evs & T & L).
  - apply wf_initial_store.
  - reflexivity.
  - vm_compute. reflexivity.
  - exists evs. split; [exact T | exact L].
Defined.

(** ** The state *)

(** X14. The state changes by the assignment of [dispatch] only. Run
    any client code on a well-formed store, to its end, whatever the
    outcome. The state of the store reached is the one that the last
    assignment recorded during the run made, and the state before the
    run when no assignment was recorded: calls of [getState],
    [subscribe], [unsubscribe], dispatches that are refused and
    dispatches whose reducer throws leave the state as it is. When the
    gate is clear, this state is what [getState()] returns. *)
Theorem X14_state_changes_by_commit_only E fuel {A : Type} (p : prog A) s r s' :
  wf s ->
  run E fuel p s = Some (r, s') ->
  exists evs,
    trace s' = trace s ++ evs /\
    currentState s' = last_commit evs (currentState s) /\
    ((forall d v, ~ In (EvCommit d v) evs) -> currentState s' = currentState s) /\
    (isDispatching s = false ->
     getState s' = (Returned (last_commit evs (currentState s)), s')).
Proof.
  intros W H. destruct (run_ok _ _ _ _ _ _ W H) as [_ X].
  destruct (ext_trace _ _ _ X) as (evs & T & _ & C & _).
  exists evs. split_and!; try done.
  - intros Hno. rewrite C. by apply last_commit_unchanged.
  - intros Hd. unfold getState. rewrite (ext_gate _ _ _ X), Hd. by rewrite C.
Qed.

Lemma X14_witness :
  let p := CallSubscribe (VFun Demo.listenerB) (fun _ =>
           CallDispatch (VNum 42) (fun _ =>
           CallDispatch (Demo.action "A") propagate)) in
  let s' := Demo.final Demo.store1 (run Demo.E 3 p Demo.store1) in
  exists evs,
    trace s' = trace Demo.store1 ++ evs /\
    currentState s' = last_commit evs VUndefined /\
    currentState s' = Demo.obj "x" (VNum 1).
Proof.
  intros p s'.
  destruct (X14_state_changes_by_commit_only Demo.E 3 p Demo.store1
              (Returned (Demo.action "A")) s')
    as (evs & T & C & _).
  - apply wf_initial_store.
  - vm_compute. reflexivity.
  - exists evs. split; [exact T |]. split; [exact C |]. vm_compute. reflexivity.
Defined.

(** ** The observable *)

Lemma notify_step E invoke turns listeners d i s :
  notify E invoke (S turns) listeners d i s
  = match array_at s listeners !! i with
    | None => Some (Returned tt, s)
    | Some listener =>
        match invoke (body E listener []) (log (EvListener d listener) s) with
        | None => None
        | Some (Threw e, s') => Some (Threw e, s')
        | Some (Returned _, s') => notify E invoke turns listeners d (S i) s'
        end
    end.
Proof. reflexivity. Qed.

(** [observeState] in a store whose gate is clear, for an observer whose
    [next] is a function: [next] is called with the current state. *)
Lemma observeState_delivers E gas invoke observer f s :
  get_prop observer "next" = VFun f ->
  isDispatching s = false ->
  exec E gas invoke (observeState E observer) s
  = match exec E gas invoke (body E f [currentState s]) s with
    | None => None
    | Some (Threw e, s') => Some (Threw e, s')
    | Some (Returned _, s') => Some (Returned VUndefined, s')
    end.
Proof.
  intros Hn Hd. unfold observeState. rewrite Hn. cbn [truthy exec].
  unfold getState. rewrite Hd. apply exec_bind.
Qed.

(** X15. What [subscribe(observer)] of the observable refuses. An
    observer that is not an object, or is [null], is refused with the
    type error of the code. An observer with a [next] that is set but is
    not a function makes the first delivery fail with a type error (of
    the engine, with some message). Called while the reducer runs with
    an observer that has a [next], the call fails with the error of
    [getState]. In the three cases the store is left as it was: nothing
    has been subscribed. *)
Theorem X15_observable_subscribe_refuses E fuel closure observer s :
  (typeof observer <> "object"%string \/ observer = VNull ->
   run E fuel (observable_subscribe E closure observer) s
   = Some (Threw (JsTypeError observer_not_object), s)) /\
  (typeof observer = "object"%string -> observer <> VNull ->
   truthy (get_prop observer "next") = true ->
   typeof (get_prop observer "next") <> "function"%string ->
   isDispatching s = false ->
   exists msg,
     run E fuel (observable_subscribe E closure observer) s
     = Some (Threw (JsTypeError msg), s)) /\
  (typeof observer = "object"%string -> observer <> VNull ->
   truthy (get_prop observer "next") = true ->
   isDispatching s = true ->
   run E fuel (observable_subscribe E closure observer) s
   = Some (Threw (JsError Msg.getState_while_dispatching), s)).
Proof.
  unfold run, observable_subscribe. split_and!.
  - intros [Ht| ->]; [| reflexivity].
    apply String.eqb_neq in Ht. by rewrite Ht.
  - intros Ht Hn Hy Hf Hd. exists observer_next_not_function. rewrite Ht.
    replace (match observer with VNull => true | _ => false end) with false
      by (by destruct observer).
    rewrite String.eqb_refl. cbn [negb orb].
    rewrite exec_bind. unfold observeState. rewrite Hy. cbn [exec].
    unfold getState. rewrite Hd.
    by destruct (get_prop observer "next").
  - intros Ht Hn Hy Hd. rewrite Ht.
    replace (match observer with VNull => true | _ => false end) with false
      by (by destruct observer).
    rewrite String.eqb_refl. cbn [negb orb].
    rewrite exec_bind. unfold observeState. rewrite Hy. cbn [exec].
    unfold getState. by rewrite Hd.
Qed.

Lemma X15_witness :
  run DemoObserver.E 1
    (observable_subscribe DemoObserver.E DemoObserver.closure (VFun DemoObserver.next_fn))
    Demo.store1
  = Some (Threw (JsTypeError observer_not_object), Demo.store1) /\
  (exists msg,
     run DemoObserver.E 1
       (observable_subscribe DemoObserver.E DemoObserver.closure
          (VObj [("next", VNum 1)]))
       Demo.store1
     = Some (Threw (JsTypeError msg), Demo.store1)) /\
  run DemoObserver.E 1
    (observable_subscribe DemoObserver.E DemoObserver.closure DemoObserver.observer)
    (gated (Demo.action "A") Demo.store1)
  = Some (Threw (JsError Msg.getState_while_dispatching),
          gated (Demo.action "A") Demo.store1).
Proof.
  split; [| split].
  - apply (X15_observable_subscribe_refuses DemoObserver.E 1 DemoObserver.closure
             (VFun DemoObserver.next_fn) Demo.store1).
    left. discriminate.
  - apply (X15_observable_subscribe_refuses DemoObserver.E 1 DemoObserver.closure
             (VObj [("next", VNum 1)]) Demo.store1).
    + reflexivity.
    + discriminate.
    + reflexivity.
    + discriminate.
    + reflexivity.
  - apply (X15_observable_subscribe_refuses DemoObserver.E 1 DemoObserver.closure
             DemoObserver.observer (gated (Demo.action "A") Demo.store1)).
    + reflexivity.
    + discriminate.
    + reflexivity.
    + reflexivity.
Defined.

(** X16. The first delivery. On a store whose gate is clear,
    [subscribe(observer)] of the observable, for an observer object
    whose [next] is a function, first calls [next] with the current
    state. If that call throws, the exception leaves [subscribe] and
    this call has subscribed nothing. If it returns, [observeState] is
    subscribed to the store as its newest listener, and the name of its
    [unsubscribe] closure is the result. An observer without [next]
    (or with a [next] that tests false) is subscribed at once. *)
Theorem X16_observable_subscribe_delivers E fuel closure observer s :
  wf s -> isDispatching s = false ->
  typeof observer = "object"%string -> observer <> VNull ->
  (forall f, get_prop observer "next" = VFun f ->
     match run E fuel (body E f [currentState s]) s with
     | None => run E fuel (observable_subscribe E closure observer) s = None
     | Some (Threw e, s1) =>
         run E fuel (observable_subscribe E closure observer) s = Some (Threw e, s1)
     | Some (Returned _, s1) =>
         exists s2,
           run E fuel (observable_subscribe E closure observer) s
           = Some (Returned (length (subs s1)), s2) /\
           subscribe (VFun closure) s1 = (Returned (length (subs s1)), s2) /\
           working s2 = working s1 ++ [closure] /\
           trace s2 = trace s1 ++ [EvSubscribe closure (length (subs s1))] /\
           currentState s2 = currentState s1 /\ wf s2
     end) /\
  (truthy (get_prop observer "next") = false ->
   exists s2,
     run E fuel (observable_subscribe E closure observer) s
     = Some (Returned (length (subs s)), s2) /\
     working s2 = working s ++ [closure] /\
     trace s2 = trace s ++ [EvSubscribe closure (length (subs s))]).
Proof.
  intros W Hd Ht Hn.
  assert (Hrun : run E fuel (observable_subscribe E closure observer) s
    = match run E fuel (observeState E observer) s with
      | None => None
      | Some (Threw e, s1) => Some (Threw e, s1)
      | Some (Returned _, s1) =>
          run E fuel (CallSubscribe (VFun closure) propagate) s1
      end).
  { unfold observable_subscribe. rewrite Ht.
    replace (match observer with VNull => true | _ => false end) with false
      by (by destruct observer).
    rewrite String.eqb_refl. cbn [negb orb]. apply run_bind. }
  assert (Hsub : forall s1, wf s1 -> isDispatching s1 = false ->
    exists s2,
      run E fuel (CallSubscribe (VFun closure) propagate) s1
      = Some (Returned (length (subs s1)), s2) /\
      subscribe (VFun closure) s1 = (Returned (length (subs s1)), s2) /\
      working s2 = working s1 ++ [closure] /\
      trace s2 = trace s1 ++ [EvSubscribe closure (length (subs s1))] /\
      currentState s2 = currentState s1 /\ wf s2).
  { intros s1 W1 Hd1.
    destruct (subscribe_spec closure s1 W1 Hd1)
      as (s2 & Hs & Hw & _ & T & _ & _ & Hst & _).
    destruct (subscribe_ok _ _ _ _ W1 Hs) as [W2 _].
    exists s2. split_and!; try done.
    unfold run. cbn [exec]. rewrite Hs. reflexivity. }
  split.
  - intros f Hf.
    assert (Hobs : run E fuel (observeState E observer) s
      = match run E fuel (body E f [currentState s]) s with
        | None => None
        | Some (Threw e, s') => Some (Threw e, s')
        | Some (Returned _, s') => Some (Returned VUndefined, s')
        end) by (by apply observeState_delivers).
    destruct (run E fuel (body E f [currentState s]) s) as [[[v|e] s1]|] eqn:Hb;
      rewrite Hrun, Hobs; [| done | done].
    destruct (run_ok _ _ _ _ _ _ W Hb) as [W1 Xr].
    apply Hsub; [done |]. by rewrite (ext_gate _ _ _ Xr).
  - intros Hno. rewrite Hrun. unfold run at 1, observeState. rewrite Hno.
    cbn [exec]. destruct (Hsub s W Hd) as (s2 & Hr & _ & Hw & T & _).
    exists s2. by split_and!.
Qed.

Lemma X16_witness :
  exists s2,
    run DemoObserver.E 1
      (observable_subscribe DemoObserver.E DemoObserver.closure DemoObserver.observer)
      (with_currentState (VNum 7) Demo.store1)
    = Some (Returned 0, s2) /\
    working s2 = [DemoObserver.closure] /\
    trace s2 = [EvEmit (VNum 7); EvSubscribe DemoObserver.closure 0].
Proof.
  destruct (X16_observable_subscribe_delivers DemoObserver.E 1 DemoObserver.closure
              DemoObserver.observer (with_currentState (VNum 7) Demo.store1))
    as [H _].
  - apply wf_initial_store.
  - reflexivity.
  - reflexivity.
  - discriminate.
  - destruct (H DemoObserver.next_fn eq_refl) as (s2 & Hr & Hs & _).
    exists s2. split; [exact Hr |].
    injection Hs as <-. split; reflexivity.
Defined.

(** X17. Later deliveries. Let [observeState] of an observer whose
    [next] logs the state it is given be the only listener of an idle
    store. A dispatch whose reducer returns [v] returns the action, and
    its events are: the reducer call with its output, the assignment of
    [v], the call of [observeState] by the loop, and the delivery of
    [v] to [next]: the observer receives the state the dispatch has
    just assigned. *)
Theorem X17_observable_notified E n closure observer f action s v s1 :
  wf s -> isDispatching s = false ->
  working s = [closure] ->
  (forall args, body E closure args = observeState E observer) ->
  get_prop observer "next" = VFun f ->
  (forall state, body E f [state] = Emit state (Ret VUndefined)) ->
  valid_action action ->
  reducer_call E (S (S n)) action s = Some (Returned v, s1) ->
  exists s' evs,
    store_dispatch E (S (S n)) action s = Some (Returned action, s') /\
    trace s' = trace s ++ EvReducer (ndispatch s) action :: evs
                       ++ [EvCommit (ndispatch s) v;
                           EvListener (ndispatch s) closure; EvEmit v] /\
    Forall is_emit evs /\
    getState s' = (Returned v, s').
Proof.
  intros W Hd Hw Hg Hf Hlog Hv Hr.
  destruct (call_ok _ _ _ _ _ _ (wf_gated action s W) Hr) as [W1 Xr].
  destruct (committing_ok action v s s1 W Hd W1 Xr)
    as (W3 & _ & Hd3 & _ & Hs3 & _ & Ha3 & evs & T3 & M3).
  cbv zeta in *. set (d := ndispatch s) in *. set (s3 := committing d v s1) in *.
  rewrite Hw in Ha3.
  exists (log (EvEmit v) (log (EvListener d closure) s3)), evs.
  split_and!.
  - rewrite (store_dispatch_unfold E _ action s Hv Hd), Hr. cbv zeta.
    fold d. fold s3. rewrite notify_step, Ha3. cbn [lookup list_lookup].
    rewrite Hg.
    change (call E (S (S n))) with (@exec E (S n) (call E (S n)) value) at 1.
    rewrite (observeState_delivers E _ _ observer f
               (log (EvListener d closure) s3) Hf Hd3).
    rewrite Hlog. cbn [exec currentState log]. rewrite Hs3.
    rewrite notify_step.
    change (array_at (log (EvEmit v) (log (EvListener d closure) s3)) (nextListeners s3))
      with (array_at s3 (nextListeners s3)).
    rewrite Ha3. reflexivity.
  - cbn [trace log]. rewrite T3, <- !app_assoc. simpl. by rewrite <- !app_assoc.
  - exact M3.
  - unfold getState. cbn [isDispatching currentState log]. by rewrite Hd3, Hs3.
Qed.

Lemma X17_witness :
  let s := Demo.final Demo.store1
             (run DemoObserver.E 1
                (observable_subscribe DemoObserver.E DemoObserver.closure
                   DemoObserver.observer) Demo.store1) in
  exists s' evs,
    store_dispatch DemoObserver.E 2 (Demo.action "A") s
    = Some (Returned (Demo.action "A"), s') /\
    trace s' = trace s ++ EvReducer 0 (Demo.action "A") :: evs
                       ++ [EvCommit 0 (Demo.obj "x" (VNum 1));
                           EvListener 0 DemoObserver.closure;
                           EvEmit (Demo.obj "x" (VNum 1))].
Proof.
  intros s.
  destruct (X17_observable_notified DemoObserver.E 0 DemoObserver.closure
              DemoObserver.observer DemoObserver.next_fn (Demo.action "A") s
              (Demo.obj "x" (VNum 1))
              (Demo.final s (reducer_call DemoObserver.E 2 (Demo.action "A") s)))
    as (s' & evs & Hr & T & _).
  - apply (run_ok DemoObserver.E 1
             (observable_subscribe DemoObserver.E DemoObserver.closure
                DemoObserver.observer) Demo.store1 (Returned 0) s).
    + apply wf_initial_store.
    + vm_compute. reflexivity.
  - reflexivity.
  - reflexivity.
  - intros args. reflexivity.
  - reflexivity.
  - intros state. reflexivity.
  - split; [reflexivity | discriminate].
  - vm_compute. reflexivity.
  - exists s', evs. split; [exact Hr | exact T].
Defined.

